(** * stensil: the PCB identifier counter

    A shallow embedding of [stensil.py]: the handler [LogFileHandler] with its
    persistent identifier set, the two extraction patterns, the diagnostic
    line filter, and the three artifacts it rewrites.

    Text is modelled over the first 256 code points (Rocq's [ascii] read as
    Latin-1), on which the Python built-ins used by the program are written
    out below.  The identifier set is a [gset string]. *)

From Stdlib Require Import Ascii String ZArith NArith List Permutation Sorted DecimalString.
From Stdlib Require Import DecimalFacts DecimalNat.
From stdpp Require Import base tactics option list sorting gmap sets strings.

Open Scope string_scope.

(** ** Python built-ins on text *)
Module Py.

Definition ord (c : ascii) : N := N_of_ascii c.

Definition between (lo hi : N) (c : ascii) : bool :=
  ((lo <=? ord c) && (ord c <=? hi))%N.

(** [str.isspace] on one character: TAB..CR, FS..US, SPACE, NEL, NBSP. *)
Definition isspace (c : ascii) : bool :=
  between 9 13 c || between 28 32 c || (ord c =? 133)%N || (ord c =? 160)%N.

(** The class [\d] of [re] and the digits accepted by [int]: Unicode
    category Nd, which below 256 is exactly [0-9]. *)
Definition isdecimal (c : ascii) : bool := between 48 57 c.

(** [str.isdigit] on one character: the decimal digits and the
    superscript digits U+00B2, U+00B3, U+00B9. *)
Definition isdigit_char (c : ascii) : bool :=
  isdecimal c || (ord c =? 178)%N || (ord c =? 179)%N || (ord c =? 185)%N.

Fixpoint all_chars (p : ascii -> bool) (s : string) : bool :=
  match s with
  | EmptyString => true
  | String c s' => p c && all_chars p s'
  end.

Definition nonempty (s : string) : bool :=
  match s with EmptyString => false | String _ _ => true end.

(** [s.isdigit()]: false on the empty string. *)
Definition isdigit (s : string) : bool := nonempty s && all_chars isdigit_char s.

(** A non-empty run of decimal digits: the shape of an identifier. *)
Definition isdecimal_str (s : string) : bool := nonempty s && all_chars isdecimal s.

(** [str.lower] on one character: A-Z and the Latin-1 capitals
    U+00C0..U+00DE (without the multiplication sign U+00D7). *)
Definition lower_char (c : ascii) : ascii :=
  if between 65 90 c || (between 192 222 c && negb (ord c =? 215)%N)
  then ascii_of_N (ord c + 32) else c.

Fixpoint lower (s : string) : string :=
  match s with
  | EmptyString => EmptyString
  | String c s' => String (lower_char c) (lower s')
  end.

Fixpoint lstrip (s : string) : string :=
  match s with
  | EmptyString => EmptyString
  | String c s' => if isspace c then lstrip s' else s
  end.

Fixpoint rstrip (s : string) : string :=
  match s with
  | EmptyString => EmptyString
  | String c s' =>
      match rstrip s' with
      | EmptyString => if isspace c then EmptyString else String c EmptyString
      | r => String c r
      end
  end.

(** [s.strip()] *)
Definition strip (s : string) : string := rstrip (lstrip s).

Fixpoint startswith (p s : string) : bool :=
  match p, s with
  | EmptyString, _ => true
  | String a p', String b s' => Ascii.eqb a b && startswith p' s'
  | String _ _, EmptyString => false
  end.

(** [sub in s] *)
Fixpoint contains (sub s : string) : bool :=
  startswith sub s ||
  match s with
  | EmptyString => false
  | String _ s' => contains sub s'
  end.

Definition LF : ascii := ascii_of_N 10.
Definition CR : ascii := ascii_of_N 13.

(** Line boundaries of [str.splitlines]: LF, VT, FF, CR, FS, GS, RS, NEL
    (CR LF counts once). *)
Definition is_linebreak (c : ascii) : bool :=
  between 10 13 c || between 28 30 c || (ord c =? 133)%N.

(** Puts [c] in front of the first line of [ls]. *)
Definition cons_char (c : ascii) (ls : list string) : list string :=
  match ls with
  | [] => [String c EmptyString]
  | l :: ls' => String c l :: ls'
  end.

(** [s.splitlines()]: no terminators kept, no empty last line. *)
Fixpoint splitlines (s : string) : list string :=
  match s with
  | EmptyString => []
  | String c s' =>
      if is_linebreak c then
        EmptyString ::
          match s' with
          | String c2 s'' =>
              if Ascii.eqb c CR && Ascii.eqb c2 LF then splitlines s'' else splitlines s'
          | EmptyString => []
          end
      else cons_char c (splitlines s')
  end.

(** Iterating a file opened in text mode with universal newlines: lines
    end at LF, CR or CR LF, and each terminator is handed over as LF. *)
Fixpoint readlines (s : string) : list string :=
  match s with
  | EmptyString => []
  | String c s' =>
      if Ascii.eqb c LF || Ascii.eqb c CR then
        String LF EmptyString ::
          match s' with
          | String c2 s'' =>
              if Ascii.eqb c CR && Ascii.eqb c2 LF then readlines s'' else readlines s'
          | EmptyString => []
          end
      else cons_char c (readlines s')
  end.

Definition digit_val (c : ascii) : Z := Z.of_N (ord c) - 48.

(** Digits of an [int] literal: decimal digits, single underscores only
    between digits. [seen] tells whether the previous character was a
    digit. *)
Fixpoint int_digits (s : string) (acc : Z) (seen : bool) : option Z :=
  match s with
  | EmptyString => if seen then Some acc else None
  | String c s' =>
      if isdecimal c then int_digits s' (10 * acc + digit_val c)%Z true
      else if Ascii.eqb c "_" && seen then int_digits s' acc false
      else None
  end.

(** The whitespace [int] skips around a literal: TAB..CR and SPACE, and,
    above U+007F, NEL and NBSP; U+001C..U+001F are not skipped. *)
Definition int_space (c : ascii) : bool :=
  between 9 13 c || (ord c =? 32)%N || (ord c =? 133)%N || (ord c =? 160)%N.

Fixpoint int_ltrim (s : string) : string :=
  match s with
  | EmptyString => EmptyString
  | String c s' => if int_space c then int_ltrim s' else s
  end.

Fixpoint int_rtrim (s : string) : string :=
  match s with
  | EmptyString => EmptyString
  | String c s' =>
      match int_rtrim s' with
      | EmptyString => if int_space c then EmptyString else String c EmptyString
      | r => String c r
      end
  end.

(** The number of digits of a literal; underscores do not count. *)
Fixpoint count_digits (s : string) : nat :=
  match s with
  | EmptyString => 0
  | String c s' => if isdecimal c then S (count_digits s') else count_digits s'
  end.

(** The default of [sys.get_int_max_str_digits()]; the program does not
    change it. *)
Definition INT_MAX_STR_DIGITS : nat := 4300.

(** A literal without its sign: more digits than the limit are refused. *)
Definition int_literal (s : string) : option Z :=
  if (count_digits s <=? INT_MAX_STR_DIGITS)%nat then int_digits s 0%Z false else None.

(** [int(s)] in base 10; [None] stands for [ValueError]. *)
Definition int (s : string) : option Z :=
  match int_rtrim (int_ltrim s) with
  | String "+" r => int_literal r
  | String "-" r => Z.opp <$> int_literal r
  | t => int_literal t
  end.

(** [str(n)] for a length *)
Definition str (n : nat) : string := NilZero.string_of_uint (Nat.to_uint n).

(** Stable insertion by key, as timsort keeps equal keys in input order. *)
Fixpoint insert_by_key {A} (x : Z * A) (l : list (Z * A)) : list (Z * A) :=
  match l with
  | [] => [x]
  | y :: ys => if (x.1 <=? y.1)%Z then x :: y :: ys else y :: insert_by_key x ys
  end.

Definition sort_keyed {A} (l : list (Z * A)) : list (Z * A) :=
  foldr insert_by_key [] l.

(** All keys are computed first; one failing key aborts the call. *)
Fixpoint keyed {A} (key : A -> option Z) (l : list A) : option (list (Z * A)) :=
  match l with
  | [] => Some []
  | x :: xs =>
      match key x, keyed key xs with
      | Some k, Some r => Some ((k, x) :: r)
      | _, _ => None
      end
  end.

(** [sorted(l, key=key)] *)
Definition sorted {A} (key : A -> option Z) (l : list A) : option (list A) :=
  (fun kl => (sort_keyed kl).*2) <$> keyed key l.

End Py.

(** ** The fragment of [re] the two patterns use

    A backtracking matcher in continuation-passing style: a quantifier tries
    its alternatives in the order [re] does (greedy: longest first; lazy:
    shortest first) and hands the rest of the text to what follows it. *)
Module Re.

Inductive atom :=
| Lit (c : ascii)            (* a literal character *)
| Set_ (cs : list ascii)     (* [...] *)
| Dot                        (* . without DOTALL: anything but LF *)
| Digit.                     (* \d *)

Inductive greed := Greedy | Lazy.

Inductive regex :=
| Atom (a : atom)
| Star (g : greed) (a : atom)     (* a* and a*? *)
| Plus (g : greed) (a : atom)     (* a+ and a+? *)
| Cat (r1 r2 : regex)
| Group (r : regex).              (* ( ... ) *)

(** Equality of characters, up to case under [re.IGNORECASE]. *)
Definition same_char (ignorecase : bool) (c x : ascii) : bool :=
  if ignorecase then Ascii.eqb (Py.lower_char c) (Py.lower_char x)
  else Ascii.eqb c x.

Definition atom_ok (ignorecase : bool) (a : atom) (c : ascii) : bool :=
  match a with
  | Lit x => same_char ignorecase c x
  | Set_ xs => existsb (same_char ignorecase c) xs
  | Dot => negb (Ascii.eqb c Py.LF)
  | Digit => Py.isdecimal c
  end.

(** [p*] followed by [k]. *)
Fixpoint star {A} (g : greed) (p : ascii -> bool) (s : string)
    (k : string -> option A) : option A :=
  match g with
  | Greedy =>
      match s with
      | String c s' =>
          if p c then
            match star g p s' k with
            | Some r => Some r
            | None => k s
            end
          else k s
      | EmptyString => k s
      end
  | Lazy =>
      match k s with
      | Some r => Some r
      | None =>
          match s with
          | String c s' => if p c then star g p s' k else None
          | EmptyString => None
          end
      end
  end.

Fixpoint take (n : nat) (s : string) : string :=
  match n, s with
  | S n', String c s' => String c (take n' s')
  | _, _ => EmptyString
  end.

(** The text between two positions: what [s] has and its suffix [rest]
    has not. *)
Definition consumed (s rest : string) : string :=
  take (String.length s - String.length rest) s.

(** [exec ic r s caps k]: match [r] at the start of [s], then continue with
    [k] on the rest of the text and the groups closed so far. *)
Fixpoint exec {A} (ic : bool) (r : regex) (s : string) (caps : list string)
    (k : string -> list string -> option A) : option A :=
  match r with
  | Atom a =>
      match s with
      | String c s' => if atom_ok ic a c then k s' caps else None
      | EmptyString => None
      end
  | Star g a => star g (atom_ok ic a) s (fun s' => k s' caps)
  | Plus g a =>
      match s with
      | String c s' =>
          if atom_ok ic a c then star g (atom_ok ic a) s' (fun s'' => k s'' caps)
          else None
      | EmptyString => None
      end
  | Cat r1 r2 => exec ic r1 s caps (fun s1 caps1 => exec ic r2 s1 caps1 k)
  | Group r' => exec ic r' s caps (fun s1 caps1 => k s1 (caps1 ++ [consumed s s1])%list)
  end.

(** A match at the start of [s]: the groups and the text after the match. *)
Definition match_at (ic : bool) (r : regex) (s : string) : option (list string * string) :=
  exec ic r s [] (fun rest caps => Some (caps, rest)).

(** Scanning for successive matches. [skip] counts the characters still
    inside the previous match: the search resumes where that match ended.
    With one group in the pattern, each match gives the text of group 1. *)
Fixpoint findall_from (ic : bool) (r : regex) (s : string) (skip : nat) : list string :=
  match skip with
  | S n =>
      match s with
      | String _ s' => findall_from ic r s' n
      | EmptyString => []
      end
  | O =>
      match match_at ic r s with
      | Some (caps, rest) =>
          hd EmptyString caps ::
            match s with
            | String _ s' =>
                findall_from ic r s' (String.length s - String.length rest - 1)
            | EmptyString => []
            end
      | None =>
          match s with
          | String _ s' => findall_from ic r s' 0
          | EmptyString => []
          end
      end
  end.

(** [re.findall(pattern, text, flags)] for a pattern with one group. *)
Definition findall (ic : bool) (r : regex) (s : string) : list string :=
  findall_from ic r s 0.

End Re.

Infix "⋅" := Re.Cat (at level 41, right associativity).

(** [PCB_ID_PATTERN = r"PCB.*(\d+)"] *)
Definition PCB_ID_PATTERN : Re.regex :=
  Re.Atom (Re.Lit "P") ⋅ Re.Atom (Re.Lit "C") ⋅ Re.Atom (Re.Lit "B") ⋅
  Re.Star Re.Greedy Re.Dot ⋅ Re.Group (Re.Plus Re.Greedy Re.Digit).

(** [FALLBACK_PATTERN = r"[Pp][Cc][Bb].*?(\d+)"] *)
Definition FALLBACK_PATTERN : Re.regex :=
  Re.Atom (Re.Set_ ["P"; "p"]%char) ⋅ Re.Atom (Re.Set_ ["C"; "c"]%char) ⋅
  Re.Atom (Re.Set_ ["B"; "b"]%char) ⋅
  Re.Star Re.Lazy Re.Dot ⋅ Re.Group (Re.Plus Re.Greedy Re.Digit).

Definition IGNORECASE : bool := true.

(** ** The world the handler runs in *)

(** The exceptions the modelled operations raise; all of them are
    subclasses of [Exception]. *)
Inductive exn := PermissionError | OSError | UnicodeDecodeError | ValueError.

(** The three artifacts the handler writes, named as their paths are. *)
Inductive artifact := COUNT_FILE_PATH | PCB_LINES_PATH | TOTAL_PCB_FILE.

#[global] Instance artifact_eq_dec : EqDecision artifact.
Proof. solve_decision. Defined.

(** The content of each artifact; [None] when the file does not exist. *)
Record files := Files {
  count_file : option string;
  pcb_lines_file : option string;
  total_pcb_file : option string
}.

Definition file_at (a : artifact) (d : files) : option string :=
  match a with
  | COUNT_FILE_PATH => count_file d
  | PCB_LINES_PATH => pcb_lines_file d
  | TOTAL_PCB_FILE => total_pcb_file d
  end.

Definition set_file (a : artifact) (v : option string) (d : files) : files :=
  match a with
  | COUNT_FILE_PATH => Files v (pcb_lines_file d) (total_pcb_file d)
  | PCB_LINES_PATH => Files (count_file d) v (total_pcb_file d)
  | TOTAL_PCB_FILE => Files (count_file d) (pcb_lines_file d) v
  end.

(** What happens to the artifacts, newest first in a trace. *)
Inductive event :=
| Opened (a : artifact)                  (* open(a, 'w') went through: a is truncated *)
| Denied (a : artifact) (e : exn)        (* open(a, 'w') raised e *)
| Written (a : artifact) (data : string) (* f.write(data) *)
| Failed (a : artifact) (e : exn)        (* a write or the close of a raised e *).

(** The fields of [LogFileHandler]. *)
Record handler := Handler {
  total_pcb_ids : gset string;
  current_date : Z
}.

Record world := World {
  self : handler;
  disk : files;
  trace : list event
}.

Inductive encoding := utf_8 | latin1 | ascii_ | utf_16 | utf_16_le | utf_16_be.

(** What goes wrong on a file once it is open, if anything: [Some (k, x,
    rem)] when its operation number [k] (the writes, counted from 0, then
    the close) raises [x] and leaves the file holding [rem], whatever of
    the data reached the disk. With fewer operations than [k] nothing goes
    wrong. *)
Definition fault : Type := option (nat * exn * string).

(** What the operating system and the clock answer during one pass. *)
Record env := Env {
  today : Z;                              (* datetime.now().date(), as a day number *)
  now : string;                           (* str(datetime.now()) *)
  source_exists : bool;                   (* os.path.exists(SOURCE_LOG_PATH) *)
  copy2 : option exn;                     (* shutil.copy2: None when it copies *)
  getsize : exn + N;                      (* os.path.getsize(BACKUP_LOG_PATH) *)
  read_text : encoding -> exn + string;   (* open(BACKUP_LOG_PATH, 'r', encoding, errors='ignore').read() *)
  read_binary : exn + string;             (* open(.., 'rb').read().decode('utf-8', errors='ignore') *)
  open_count_newday : option exn;         (* opening the count file at the day change *)
  open_count : option exn;                (* opening the count file at the end of the pass *)
  open_lines : option exn;                (* opening the PCB lines file *)
  open_total : option exn;                (* opening the total PCB ids file *)
  fault_count_newday : fault;             (* writing and closing the count file at the day change *)
  fault_count : fault;                    (* writing and closing the count file at the end *)
  fault_lines : fault;                    (* writing and closing the PCB lines file *)
  fault_total : fault;                    (* writing and closing the total PCB ids file *)
  set_order : gset string -> list string  (* the order in which a set is iterated *)
}.

(** ** Statements that may raise or return *)

Inductive outcome (A : Type) :=
| Val (a : A)       (* falls through with a value *)
| Return_           (* a [return] statement was executed *)
| Exc (e : exn).    (* an exception is propagating *)
Arguments Val {A} a.
Arguments Return_ {A}.
Arguments Exc {A} e.

Definition M (A : Type) : Type := world -> outcome A * world.

Definition ret {A} (a : A) : M A := fun w => (Val a, w).

Definition bind {A B} (m : M A) (f : A -> M B) : M B :=
  fun w =>
    match m w with
    | (Val a, w') => f a w'
    | (Return_, w') => (Return_, w')
    | (Exc e, w') => (Exc e, w')
    end.

Declare Scope py_scope.
Delimit Scope py_scope with py.
Notation "x <- m ;; k" := (bind m (fun x => k))
  (at level 100, m at next level, right associativity) : py_scope.
Notation "m ;; k" := (bind m (fun _ => k))
  (at level 100, right associativity) : py_scope.
Open Scope py_scope.

Definition raise {A} (e : exn) : M A := fun w => (Exc e, w).
Definition return_ {A} : M A := fun w => (Return_, w).

(** [try: body except Exception: handler] *)
Definition try_except {A} (body : M A) (handler : exn -> M A) : M A :=
  fun w =>
    match body w with
    | (Exc e, w') => handler e w'
    | r => r
    end.

(** The body of a [def]: a [return] ends the call normally. *)
Definition def (body : M unit) : M unit :=
  fun w =>
    match body w with
    | (Return_, w') => (Val tt, w')
    | r => r
    end.

Definition get_self : M handler := fun w => (Val (self w), w).
Definition set_self (h : handler) : M unit :=
  fun w => (Val tt, World h (disk w) (trace w)).
Definition get_disk : M files := fun w => (Val (disk w), w).

Definition emit (ev : event) (d : files) : M unit :=
  fun w => (Val tt, World (self w) d (ev :: trace w)).

(** [open(a, 'w')]: either raises and leaves the file, or truncates it and
    hands over the open file, here what will go wrong on it. *)
Definition open_w (a : artifact) (o : option exn) (f : fault) : M fault :=
  fun w =>
    match o with
    | Some e => (Exc e, World (self w) (disk w) (Denied a e :: trace w))
    | None =>
        (Val f, World (self w) (set_file a (Some EmptyString) (disk w)) (Opened a :: trace w))
    end.

(** An operation on the open file raises and leaves [rem] in it. *)
Definition fail_on {A} (a : artifact) (x : exn) (rem : string) : M A :=
  fun w => (Exc x, World (self w) (set_file a (Some rem) (disk w)) (Failed a x :: trace w)).

(** [f.write(data)] on an open file. *)
Definition write (a : artifact) (data : string) (f : fault) : M fault :=
  match f with
  | Some (O, x, rem) => fail_on a x rem
  | Some (S k, x, rem) =>
      fun w =>
        (Val (Some (k, x, rem)),
         World (self w)
               (set_file a (Some (default EmptyString (file_at a (disk w)) ++ data)) (disk w))
               (Written a data :: trace w))
  | None =>
      fun w =>
        (Val None,
         World (self w)
               (set_file a (Some (default EmptyString (file_at a (disk w)) ++ data)) (disk w))
               (Written a data :: trace w))
  end.

(** The close at the end of a [with] block. *)
Definition close_w (a : artifact) (f : fault) : M unit :=
  match f with
  | Some (O, x, rem) => fail_on a x rem
  | _ => ret tt
  end.

(** [for x in l: body x], the body working on the open file. *)
Fixpoint for_ {A S} (l : list A) (body : A -> S -> M S) (f : S) : M S :=
  match l with
  | [] => ret f
  | x :: xs => f' <- body x f ;; for_ xs body f'
  end.

Definition nl : string := String Py.LF EmptyString.

(** ** [LogFileHandler] *)

(** [load_total_pcb_ids]; [o] is what opening and reading the file does. *)
Definition load_total_pcb_ids (o : option exn) : M (gset string) :=
  try_except
    (d <- get_disk ;;
     match total_pcb_file d with
     | Some content =>
         match o with
         | Some e => raise e
         | None =>
             ret (list_to_set
                    (map Py.strip
                       (filter (fun line => Is_true (Py.isdigit (Py.strip line)))
                          (Py.readlines content))))
         end
     | None => ret ∅
     end)
    (fun _ => ret ∅).

(** [__init__] *)
Definition init (o : option exn) (date : Z) : M unit :=
  ids <- load_total_pcb_ids o ;;
  set_self (Handler ids date).

(** [save_total_pcb_ids] *)
Definition save_total_pcb_ids (e : env) : M unit :=
  try_except
    (f <- open_w TOTAL_PCB_FILE (open_total e) (fault_total e) ;;
     h <- get_self ;;
     match Py.sorted Py.int (set_order e (total_pcb_ids h)) with
     | Some ids =>
         f <- for_ ids (fun pcb_id f => write TOTAL_PCB_FILE (pcb_id ++ nl) f) f ;;
         close_w TOTAL_PCB_FILE f
     | None => close_w TOTAL_PCB_FILE f ;; raise ValueError
     end)
    (fun _ => ret tt).

(** [update_count_file]; [o] is what opening the count file does, [fl] what
    goes wrong on it once open. *)
Definition update_count_file (o : option exn) (fl : fault) : M unit :=
  try_except
    (f <- open_w COUNT_FILE_PATH o fl ;;
     h <- get_self ;;
     f <- write COUNT_FILE_PATH (Py.str (size (total_pcb_ids h)) ++ nl) f ;;
     close_w COUNT_FILE_PATH f)
    (fun _ => ret tt).

(** The [for encoding in [...]] loop: the first encoding that reads. *)
Fixpoint first_readable (e : env) (encs : list encoding) : option string :=
  match encs with
  | [] => None
  | enc :: rest =>
      match read_text e enc with
      | inr content => Some content
      | inl _ => first_readable e rest
      end
  end.

Definition encodings : list encoding :=
  [utf_8; latin1; ascii_; utf_16; utf_16_le; utf_16_be].

(** Lines 125-128: the primary pattern, and the fallback when it finds
    nothing. *)
Definition extract_pcb_ids (content : string) : list string :=
  match Re.findall IGNORECASE PCB_ID_PATTERN content with
  | [] => Re.findall IGNORECASE FALLBACK_PATTERN content
  | pcb_ids => pcb_ids
  end.

(** Line 130 *)
Definition is_pcb_line (line : string) : bool :=
  Py.contains "PCB" (Py.lower line) || Py.contains "pcb" line.

Definition pcb_lines_of (lines : list string) : list string :=
  map Py.strip (filter (fun line => Is_true (is_pcb_line line)) lines).

(** [process_log_file] *)
Definition process_log_file (e : env) : M unit :=
  def (
    (* day change *)
    h <- get_self ;;
    (if bool_decide (today e ≠ current_date h) then
       set_self (Handler (total_pcb_ids h) (today e)) ;;
       update_count_file (open_count_newday e) (fault_count_newday e)
     else ret tt) ;;
    (* copy the source to the backup *)
    try_except
      (if negb (source_exists e) then
         update_count_file (open_count e) (fault_count e) ;; return_
       else
         match copy2 e with
         | Some x => raise x
         | None => ret tt
         end)
      (fun _ => update_count_file (open_count e) (fault_count e) ;; return_) ;;
    (* read and process the backup *)
    try_except
      (file_size <- match getsize e with inl x => raise x | inr n => ret n end ;;
       (if (file_size =? 0)%N then update_count_file (open_count e) (fault_count e) ;; return_
        else ret tt) ;;
       content <-
         match first_readable e encodings with
         | Some c => ret c
         | None =>
             try_except
               (match read_binary e with inl x => raise x | inr c => ret c end)
               (fun _ => update_count_file (open_count e) (fault_count e) ;; return_)
         end ;;
       let lines := Py.splitlines content in
       let pcb_ids := extract_pcb_ids content in
       let pcb_lines := pcb_lines_of lines in
       try_except
         (f <- open_w PCB_LINES_PATH (open_lines e) (fault_lines e) ;;
          f <- write PCB_LINES_PATH ("Date: " ++ now e ++ nl) f ;;
          f <- write PCB_LINES_PATH
                 ("PCB-related lines (" ++ Py.str (length pcb_lines) ++ "):" ++ nl) f ;;
          f <- for_ pcb_lines (fun line f => write PCB_LINES_PATH (line ++ nl) f) f ;;
          close_w PCB_LINES_PATH f)
         (fun _ => ret tt) ;;
       h <- get_self ;;
       let prev_total_count := size (total_pcb_ids h) in
       set_self (Handler (total_pcb_ids h ∪ list_to_set pcb_ids) (current_date h)) ;;
       h <- get_self ;;
       (if bool_decide (prev_total_count < size (total_pcb_ids h))
        then save_total_pcb_ids e else ret tt) ;;
       update_count_file (open_count e) (fault_count e))
      (fun _ => update_count_file (open_count e) (fault_count e))
  ).

(** One pass: the world after [process_log_file]. *)
Definition pass (e : env) (w : world) : world := (process_log_file e w).2.

(** The passes of a run, in order. *)
Definition run (es : list env) (w : world) : world := foldl (fun w e => pass e w) w es.

(** A quiet environment reading [content]: every call goes through. *)
Definition env_reading (content : string) : env :=
  Env 0 "2024-01-01 00:00:00" true None (inr (N.of_nat (String.length content)))
      (fun _ => inr content) (inr content) None None None None None None None None elements.

Definition fresh : world := World (Handler ∅ 0) (Files None None None) [].

(** ** Closed forms of the effects

    What each method leaves behind, as a function of the world it starts in;
    the lemmas of the next part show that the methods compute these. *)

(** A file opened, then written chunk by chunk. *)
Definition rewrite_file (a : artifact) (chunks : list string) (w : world) : world :=
  World (self w)
        (set_file a (Some (String.concat EmptyString chunks)) (disk w))
        (rev (map (Written a) chunks) ++ Opened a :: trace w).

Definition denied (a : artifact) (x : exn) (w : world) : world :=
  World (self w) (disk w) (Denied a x :: trace w).

(** A file opened, written up to the chunks [done], and then left holding
    [rem] by an operation that raised [x]. *)
Definition faulted (a : artifact) (done : list string) (x : exn) (rem : string)
    (w : world) : world :=
  World (self w)
        (set_file a (Some rem) (disk w))
        (Failed a x :: rev (map (Written a) done) ++ Opened a :: trace w).

(** A [with] block that opens the file and writes [chunks], under what goes
    wrong on the open file. *)
Definition block (a : artifact) (chunks : list string) (f : fault) (w : world) : world :=
  match f with
  | Some (k, x, rem) =>
      if (k <=? length chunks)%nat then faulted a (take k chunks) x rem w
      else rewrite_file a chunks w
  | None => rewrite_file a chunks w
  end.

(** The writes of a block, one after the other, and its close. *)
Fixpoint write_all (a : artifact) (chunks : list string) (f : fault) : M unit :=
  match chunks with
  | [] => close_w a f
  | c :: cs => f' <- write a c f ;; write_all a cs f'
  end.

Definition count_line (w : world) : string :=
  Py.str (size (total_pcb_ids (self w))) ++ nl.

Definition after_count (o : option exn) (f : fault) (w : world) : world :=
  match o with
  | Some x => denied COUNT_FILE_PATH x w
  | None => block COUNT_FILE_PATH [count_line w] f w
  end.

Definition store_lines (ids : list string) : list string :=
  map (fun pcb_id => pcb_id ++ nl) ids.

Definition after_save (e : env) (w : world) : world :=
  match open_total e with
  | Some x => denied TOTAL_PCB_FILE x w
  | None =>
      match Py.sorted Py.int (set_order e (total_pcb_ids (self w))) with
      | Some ids => block TOTAL_PCB_FILE (store_lines ids) (fault_total e) w
      | None => block TOTAL_PCB_FILE [] (fault_total e) w
      end
  end.

Definition lines_chunks (e : env) (content : string) : list string :=
  let pcb_lines := pcb_lines_of (Py.splitlines content) in
  ("Date: " ++ now e ++ nl)
    :: ("PCB-related lines (" ++ Py.str (length pcb_lines) ++ "):" ++ nl)
    :: map (fun line => line ++ nl) pcb_lines.

Definition after_lines (e : env) (content : string) (w : world) : world :=
  match open_lines e with
  | Some x => denied PCB_LINES_PATH x w
  | None => block PCB_LINES_PATH (lines_chunks e content) (fault_lines e) w
  end.

Definition merged (content : string) (w : world) : world :=
  World (Handler (total_pcb_ids (self w) ∪ list_to_set (extract_pcb_ids content))
                 (current_date (self w)))
        (disk w) (trace w).

(** Lines 120-154 on the decoded text [content]. *)
Definition ingest (e : env) (content : string) (w : world) : world :=
  let w1 := merged content (after_lines e content w) in
  if bool_decide (size (total_pcb_ids (self w)) < size (total_pcb_ids (self w1)))
  then after_save e w1 else w1.

(** Lines 66-70. *)
Definition day_change (e : env) (w : world) : world :=
  if bool_decide (today e ≠ current_date (self w)) then
    after_count (open_count_newday e) (fault_count_newday e)
      (World (Handler (total_pcb_ids (self w)) (today e)) (disk w) (trace w))
  else w.

(** The decoded text that reaches the extraction, when the pass gets
    that far. *)
Definition snapshot (e : env) : option string :=
  if source_exists e then
    match copy2 e, getsize e with
    | None, inr n =>
        if (n =? 0)%N then None
        else
          match first_readable e encodings with
          | Some c => Some c
          | None => match read_binary e with inr c => Some c | inl _ => None end
          end
    | _, _ => None
    end
  else None.

(** The artifact an event is about. *)
Definition event_artifact (ev : event) : artifact :=
  match ev with Opened a | Denied a _ | Written a _ | Failed a _ => a end.


(** The text left after the longest run of characters in [p]. *)
Fixpoint drop_while (p : ascii -> bool) (s : string) : string :=
  match s with
  | String c s' => if p c then drop_while p s' else s
  | EmptyString => EmptyString
  end.

(** What is left to match once [PCB] and a gap are behind: the group. *)
Definition digits_group (s : string) : option (list string * string) :=
  Re.exec IGNORECASE (Re.Group (Re.Plus Re.Greedy Re.Digit)) s []
    (fun rest caps => Some (caps, rest)).

(** A string of one decimal digit. *)
Definition single_digit (s : string) : Prop :=
  ∃ d, Py.isdecimal d = true ∧ s = String d EmptyString.

(** A step from [w] to [w'] that leaves artifact [a] alone: its content is
    the same and no new event is about it. *)
Definition leaves (a : artifact) (w w' : world) : Prop :=
  file_at a (disk w') = file_at a (disk w) ∧
  ∃ evs, trace w' = (evs ++ trace w)%list ∧
         Forall (fun ev => event_artifact ev ≠ a) evs.

(** A non-empty string of decimal digits that [int] still reads: at most
    [INT_MAX_STR_DIGITS] digits. *)
Definition short_decimal (x : string) : bool :=
  Py.isdecimal_str x && (String.length x <=? Py.INT_MAX_STR_DIGITS)%nat.

(** [a] is numerically at most [b], both being readable by [int]. *)
Definition int_leb (a b : string) : bool :=
  match Py.int a, Py.int b with
  | Some x, Some y => (x <=? y)%Z
  | _, _ => false
  end.

Definition int_le (a b : string) : Prop := Is_true (int_leb a b).

Definition key_le {A} (x y : Z * A) : Prop := (x.1 ≤ y.1)%Z.

(** What [load_total_pcb_ids] returns, from the store and from what opening
    it does. *)
Definition loaded (store : option string) (o : option exn) : gset string :=
  match store, o with
  | Some content, None =>
      list_to_set
        (map Py.strip
           (filter (fun line => Is_true (Py.isdigit (Py.strip line))) (Py.readlines content)))
  | _, _ => ∅
  end.

(** U+00B2, SUPERSCRIPT TWO. *)
Definition SUPERSCRIPT_TWO : ascii := ascii_of_N 178.

(** A handler that starts on the store [store], as [main] starts it. *)
Definition started_on (store : string) : world :=
  (init None 0 (World (Handler ∅ 0) (Files None None (Some store)) [])).2.

(** The three identifiers of the example, one per line, and on one line. *)
Definition three_lines : string := "PCB0012" ++ nl ++ "PCB0012" ++ nl ++ "PCB0013" ++ nl.
Definition one_line : string := "PCB0012 PCB0012 PCB0013" ++ nl.

(** The text has [pcb], in any case, and a decimal digit later on the same
    line. *)
Definition pcb_then_digit (s : string) : Prop :=
  ∃ pre c1 c2 c3 gap d post,
    s = pre ++ String c1 (String c2 (String c3 (gap ++ String d post))) ∧
    Py.lower (String c1 (String c2 (String c3 EmptyString))) = "pcb" ∧
    Py.all_chars (fun c => negb (Ascii.eqb c Py.LF)) gap = true ∧
    Py.isdecimal d = true.

(** An environment in which the source log does not exist. *)
Definition env_missing : env :=
  Env 1 "2024-01-02 00:00:00" false None (inl OSError)
      (fun _ => inl OSError) (inl OSError) None None None None None None None None elements.

(** A handler holding the identifiers 2, 10 and 1, nothing on disk yet. *)
Definition holding_2_10_1 : world :=
  World (Handler {["2"; "10"; "1"]} 0) (Files None None None) [].

(** The handler as [main] leaves it before the first pass over an empty
    store: the count file was written once, with 0. *)
Definition started : world :=
  World (Handler ∅ 0) (Files (Some ("0" ++ nl)) None None) [].

(** A pass that reads one new identifier while the count file cannot be
    opened. *)
Definition env_count_refused : env :=
  Env 0 "2024-01-01 00:00:00" true None (inr 5%N)
      (fun _ => inr ("PCB1" ++ nl)) (inr ("PCB1" ++ nl))
      None (Some PermissionError) None None None None None None elements.

(** The source log does not exist and the count file cannot be opened. *)
Definition env_missing_refused : env :=
  Env 0 "2024-01-01 00:00:00" false None (inl OSError)
      (fun _ => inl OSError) (inl OSError)
      (Some PermissionError) (Some PermissionError) None None None None None None elements.

(** An identifier of 4301 digits. *)
Definition digits_4301 : string := string_of_list_ascii (replicate 4301 "7"%char).

(** A handler holding that identifier, over a store with one line. *)
Definition holding_digits_4301 : world :=
  World (Handler {[digits_4301]} 0) (Files None None (Some ("7" ++ nl))) [].

(** ** The trigger and the start of [main] *)

(** The two fields of a watchdog event that [on_modified] reads. *)
Record fs_event := FsEvent {
  src_path : string;
  is_directory : bool
}.

Definition SOURCE_LOG_PATH : string := "C:\spi\spi_log.his".

(** [on_modified]; the settle delay passes no value and is left out. *)
Definition on_modified (ev : fs_event) (e : env) : M unit :=
  if String.eqb (src_path ev) SOURCE_LOG_PATH && negb (is_directory ev)
  then process_log_file e
  else ret tt.

(** [main] up to the start of the observer: the handler is built, the count
    file is written once, and a first pass runs when the source log exists.
    [o_load] and [o_count] are what opening the store and the count file do,
    [f_count] is what goes wrong on the open count file, [at_start] is
    [os.path.exists(SOURCE_LOG_PATH)] in [main]. *)
Definition main_start (o_load : option exn) (date : Z) (o_count : option exn)
    (f_count : fault) (at_start : bool) (e : env) : M unit :=
  init o_load date ;;
  update_count_file o_count f_count ;;
  if at_start then process_log_file e else ret tt.

(** The events the observer delivers, one after the other. *)
Definition watch (evs : list (fs_event * env)) (w : world) : world :=
  foldl (fun w p => (on_modified p.1 p.2 w).2) w evs.

(** ** Notions for the further properties *)

(** The longest run of characters in [p] at the start of [s]. *)
Fixpoint take_while (p : ascii -> bool) (s : string) : string :=
  match s with
  | String c s' => if p c then String c (take_while p s') else EmptyString
  | EmptyString => EmptyString
  end.

(** Every identifier of the handler is a non-empty string of at most 4300
    decimal digits. *)
Definition all_short_decimal (w : world) : Prop :=
  ∀ x, x ∈ total_pcb_ids (self w) -> short_decimal x = true.

(** Loading the store as it is on disk gives the set the handler holds. *)
Definition store_in_step (w : world) : Prop :=
  loaded (total_pcb_file (disk w)) None = total_pcb_ids (self w).

(** The environment iterates every set over exactly its elements. *)
Definition order_ok (e : env) : Prop :=
  ∀ S : gset string, set_order e S ≡ₚ elements S.

(** The store can be opened, written and closed, and sets are iterated
    over their elements. *)
Definition store_writable (e : env) : Prop :=
  open_total e = None ∧ fault_total e = None ∧ order_ok e.

(** The pass stops before the extraction: one of the early paths of lines
    73-117 is taken. *)
Definition stops_early (e : env) : Prop :=
  source_exists e = false ∨ copy2 e ≠ None ∨ (∃ x, getsize e = inl x) ∨
  getsize e = inr 0%N ∨
  ((∀ enc, ∃ x, read_text e enc = inl x) ∧ ∃ x, read_binary e = inl x).


(** A character that neither is a decimal digit nor ends the line. *)
Definition plain (c : ascii) : bool := negb (Py.isdecimal c) && negb (Ascii.eqb c Py.LF).

(** The text is at its end or at a line feed. *)
Definition at_line_end (s : string) : Prop :=
  s = EmptyString ∨ ∃ s', s = String Py.LF s'.

(** A pass that reads one new identifier while the store cannot be
    opened. *)
Definition env_store_refused : env :=
  Env 0 "2024-01-01 00:00:00" true None (inr 5%N)
      (fun _ => inr ("PCB1" ++ nl)) (inr ("PCB1" ++ nl))
      None None None (Some PermissionError) None None None None elements.


(** ** The built-ins at work *)

Example splitlines_mixed :
  Py.splitlines ("a" ++ String Py.CR nl ++ nl ++ "b" ++ nl) = ["a"; ""; "b"].
Proof. reflexivity. Qed.

Example readlines_mixed :
  Py.readlines ("a" ++ String Py.CR nl ++ String Py.CR "b") = ["a" ++ nl; nl; "b"].
Proof. reflexivity. Qed.

Example strip_both_ends : Py.strip ("  12 " ++ String Py.CR nl) = "12".
Proof. reflexivity. Qed.

Example int_readings :
  Py.int " +1_2 " = Some 12%Z ∧ Py.int "0012" = Some 12%Z ∧ Py.int "-7" = Some (-7)%Z ∧
  Py.int "1__2" = None ∧ Py.int "12_" = None ∧ Py.int "" = None ∧ Py.int "1 2" = None ∧
  Py.int (String (ascii_of_N 28) "12") = None ∧ Py.int (String (ascii_of_N 160) "12") = Some 12%Z.
Proof. vm_compute. done. Qed.

Example isdigit_is_wider_than_decimal :
  Py.isdigit (String SUPERSCRIPT_TWO EmptyString) = true ∧
  Py.isdecimal_str (String SUPERSCRIPT_TWO EmptyString) = false.
Proof. vm_compute. done. Qed.

Example sorted_is_stable :
  Py.sorted Py.int ["2"; "10"; "1"; "01"] = Some ["1"; "01"; "2"; "10"] ∧
  Py.sorted Py.int ["01"; "2"; "1"] = Some ["01"; "1"; "2"] ∧
  Py.sorted Py.int ["2"; "x"] = None.
Proof. vm_compute. done. Qed.

Example findall_three_lines :
  Re.findall IGNORECASE PCB_ID_PATTERN three_lines = ["2"; "2"; "3"] ∧
  Re.findall IGNORECASE FALLBACK_PATTERN three_lines = ["0012"; "0012"; "0013"] ∧
  Re.findall IGNORECASE PCB_ID_PATTERN one_line = ["3"] ∧
  Re.findall IGNORECASE FALLBACK_PATTERN one_line = ["0012"; "0012"; "0013"].
Proof. vm_compute. done. Qed.

(** The gap of neither pattern crosses a line end. *)
Example gap_stays_on_the_line :
  Re.findall IGNORECASE PCB_ID_PATTERN ("pcb " ++ nl ++ "7") = [] ∧
  Re.findall IGNORECASE FALLBACK_PATTERN ("pcb " ++ nl ++ "7") = [].
Proof. vm_compute. done. Qed.

(** ** Lemmas on the effects *)

Lemma set_file_twice a v v' d : set_file a v (set_file a v' d) = set_file a v d.
Proof. by destruct a. Qed.

Lemma file_at_set_file a v d : file_at a (set_file a v d) = v.
Proof. by destruct a. Qed.

Lemma file_at_set_file_ne a b v d : a ≠ b → file_at a (set_file b v d) = file_at a d.
Proof. by destruct a, b. Qed.

Lemma append_cons (c : ascii) (s t : string) : String c s ++ t = String c (s ++ t).
Proof. reflexivity. Qed.

Lemma append_empty_l (s : string) : EmptyString ++ s = s.
Proof. reflexivity. Qed.

Lemma append_empty_r (s : string) : s ++ EmptyString = s.
Proof. induction s as [|c s IH]; [done | by rewrite append_cons, IH]. Qed.

Lemma append_assoc' (a b c : string) : (a ++ b) ++ c = a ++ (b ++ c).
Proof. induction a as [|x a IH]; [done | by rewrite !append_cons, IH]. Qed.

Lemma concat_cons_empty (x : string) (l : list string) :
  String.concat EmptyString (x :: l) = x ++ String.concat EmptyString l.
Proof. destruct l as [|y l]; simpl; [by rewrite append_empty_r | done]. Qed.

(** A loop of writes appends the chunks, in order, to an open file. *)
Lemma set_file_same (a : artifact) (d : files) (v : string) :
  file_at a d = Some v -> set_file a (Some v) d = d.
Proof. destruct a, d; cbn; by intros ->. Qed.

(** The writes and the close of a block, on a file that holds [s]: all the
    chunks are appended, unless an operation raises on the way. *)
Lemma write_all_run (a : artifact) (chunks : list string) (f : fault) (w : world)
    (s : string) :
  file_at a (disk w) = Some s ->
  write_all a chunks f w =
  let ok := (Val tt,
             World (self w)
                   (set_file a (Some (s ++ String.concat EmptyString chunks)) (disk w))
                   (rev (map (Written a) chunks) ++ trace w)) in
  match f with
  | Some (k, x, rem) =>
      if (k <=? length chunks)%nat then
        (Exc x,
         World (self w) (set_file a (Some rem) (disk w))
               (Failed a x :: rev (map (Written a) (take k chunks)) ++ trace w))
      else ok
  | None => ok
  end.
Proof.
  revert f w s. induction chunks as [|c cs IH]; intros f w s Hs.
  - cbn [write_all String.concat length map rev app]. rewrite append_empty_r.
    rewrite (set_file_same _ _ _ Hs).
    destruct f as [[[[|k] x] rem]|]; cbn; unfold ret; by destruct w.
  - cbn [write_all]. unfold bind.
    destruct f as [[[[|k] x] rem]|]; [done| |].
    + cbn [write]. rewrite (IH _ _ (s ++ c)); cbn [self disk trace].
      * rewrite Hs. cbn [default from_option id length Nat.leb take map rev].
        rewrite !set_file_twice, concat_cons_empty, append_assoc', <- !app_assoc. done.
      * rewrite Hs. apply file_at_set_file.
    + cbn [write]. rewrite (IH _ _ (s ++ c)); cbn [self disk trace].
      * rewrite Hs. cbn [default from_option id map rev].
        rewrite !set_file_twice, concat_cons_empty, append_assoc', <- !app_assoc. done.
      * rewrite Hs. apply file_at_set_file.
Qed.

Lemma for_write_all {A} (a : artifact) (g : A -> string) (l : list A) (f : fault)
    (w : world) :
  (f' <- for_ l (fun x f => write a (g x) f) f ;; close_w a f') w
  = write_all a (map g l) f w.
Proof.
  revert f w. induction l as [|x l IH]; intros f w; [done|].
  cbn [for_ map write_all]. unfold bind at 1 2 3.
  destruct (write a (g x) f w) as [[f'| |y] w']; [|done|done].
  apply IH.
Qed.

(** A [with] block after its open, in closed form. *)
Lemma block_run (a : artifact) (chunks : list string) (f : fault) (w : world) :
  try_except
    (write_all a chunks f)
    (fun _ => ret tt)
    (World (self w) (set_file a (Some EmptyString) (disk w)) (Opened a :: trace w))
  = (Val tt, block a chunks f w).
Proof.
  unfold try_except. rewrite (write_all_run _ _ _ _ EmptyString) by apply file_at_set_file.
  cbn [self disk trace]. unfold block, faulted, rewrite_file, ret.
  destruct f as [[[k x] rem]|]; [destruct (k <=? length chunks)%nat|];
    by rewrite ?set_file_twice, ?append_empty_l.
Qed.

Lemma update_count_file_eq (o : option exn) (f : fault) (w : world) :
  update_count_file o f w = (Val tt, after_count o f w).
Proof.
  unfold update_count_file, after_count. destruct o as [x|]; [reflexivity|].
  rewrite <- (block_run COUNT_FILE_PATH [count_line w] f w).
  unfold try_except, bind, open_w, get_self. cbn [self disk trace write_all].
  unfold bind, count_line. cbn [self].
  by destruct (write _ _ _ _) as [[f'| |y] w'].
Qed.

Lemma save_total_pcb_ids_eq (e : env) (w : world) :
  save_total_pcb_ids e w = (Val tt, after_save e w).
Proof.
  unfold save_total_pcb_ids, after_save.
  destruct (open_total e) as [x|].
  { unfold try_except, bind, open_w. done. }
  destruct (Py.sorted Py.int (set_order e (total_pcb_ids (self w)))) as [ids|] eqn:Hids.
  - rewrite <- (block_run TOTAL_PCB_FILE (store_lines ids) (fault_total e) w).
    unfold try_except, bind at 1 2, open_w, get_self. cbn [self disk trace].
    rewrite Hids. by rewrite for_write_all.
  - rewrite <- (block_run TOTAL_PCB_FILE [] (fault_total e) w).
    unfold try_except, bind, open_w, get_self. cbn [self disk trace write_all].
    rewrite Hids. unfold raise, ret.
    by destruct (close_w _ _ _) as [[[]| |y] w'].
Qed.

Lemma write_pcb_lines_eq (e : env) (content : string) (w : world) :
  try_except
    (f <- open_w PCB_LINES_PATH (open_lines e) (fault_lines e) ;;
     f <- write PCB_LINES_PATH ("Date: " ++ now e ++ nl) f ;;
     f <- write PCB_LINES_PATH
            ("PCB-related lines (" ++ Py.str (length (pcb_lines_of (Py.splitlines content)))
               ++ "):" ++ nl) f ;;
     f <- for_ (pcb_lines_of (Py.splitlines content))
            (fun line f => write PCB_LINES_PATH (line ++ nl) f) f ;;
     close_w PCB_LINES_PATH f)
    (fun _ => ret tt) w
  = (Val tt, after_lines e content w).
Proof.
  unfold after_lines.
  destruct (open_lines e) as [x|].
  { unfold try_except, bind, open_w. done. }
  rewrite <- (block_run PCB_LINES_PATH (lines_chunks e content) (fault_lines e) w).
  unfold try_except, bind at 1, open_w.
  unfold lines_chunks. cbn [write_all]. unfold bind at 1 4.
  destruct (write _ _ _ _) as [[f1| |y] w1]; [|done|done].
  unfold bind at 1 3.
  destruct (write _ _ _ _) as [[f2| |y] w2]; [|done|done].
  by rewrite for_write_all.
Qed.

(** Lines 120-157 on the decoded text [c]. *)
Lemma ingest_run (e : env) (c : string) (w : world) :
  (try_except
     (f <- open_w PCB_LINES_PATH (open_lines e) (fault_lines e) ;;
      f <- write PCB_LINES_PATH ("Date: " ++ now e ++ nl) f ;;
      f <- write PCB_LINES_PATH
             ("PCB-related lines (" ++ Py.str (length (pcb_lines_of (Py.splitlines c)))
                ++ "):" ++ nl) f ;;
      f <- for_ (pcb_lines_of (Py.splitlines c))
             (fun line f => write PCB_LINES_PATH (line ++ nl) f) f ;;
      close_w PCB_LINES_PATH f)
     (fun _ => ret tt) ;;
   h <- get_self ;;
   set_self (Handler (total_pcb_ids h ∪ list_to_set (extract_pcb_ids c)) (current_date h)) ;;
   h0 <- get_self ;;
   (if bool_decide (size (total_pcb_ids h) < size (total_pcb_ids h0))
    then save_total_pcb_ids e else ret tt) ;;
   update_count_file (open_count e) (fault_count e)) w
  = (Val tt, after_count (open_count e) (fault_count e) (ingest e c w)).
Proof.
  unfold bind at 1. rewrite write_pcb_lines_eq.
  unfold bind, get_self, set_self. cbn [self disk trace total_pcb_ids current_date].
  unfold ingest, merged.
  assert (Hs : self (after_lines e c w) = self w).
  { unfold after_lines, block. destruct (open_lines e); [done|].
    destruct (fault_lines e) as [[[k x] rem]|]; [|done]. by destruct (_ <=? _)%nat. }
  rewrite Hs. cbn [self total_pcb_ids]. case_bool_decide.
  - by rewrite save_total_pcb_ids_eq, update_count_file_eq.
  - unfold ret. by rewrite update_count_file_eq.
Qed.

(** One pass, in closed form: whatever happens, the call ends normally with
    a refresh of the count file. *)
Lemma process_log_file_eq (e : env) (w : world) :
  process_log_file e w =
  (Val tt,
   after_count (open_count e) (fault_count e)
     match snapshot e with
     | Some content => ingest e content (day_change e w)
     | None => day_change e w
     end).
Proof.
  unfold process_log_file, snapshot, def.
  unfold bind at 1. unfold get_self at 1. cbn [fst snd].
  unfold bind at 1.
  assert (Hday : (if bool_decide (today e ≠ current_date (self w))
                  then set_self (Handler (total_pcb_ids (self w)) (today e)) ;;
                       update_count_file (open_count_newday e) (fault_count_newday e)
                  else ret tt) w = (Val tt, day_change e w)).
  { unfold day_change. case_bool_decide; [|reflexivity].
    unfold bind, set_self. by rewrite update_count_file_eq. }
  rewrite Hday. clear Hday. generalize (day_change e w) as w1. intros w1.
  unfold bind at 1. unfold try_except at 1.
  destruct (source_exists e); cbn [negb].
  2:{ unfold bind at 1. rewrite update_count_file_eq. reflexivity. }
  destruct (copy2 e) as [x|].
  { unfold raise. unfold bind at 1. rewrite update_count_file_eq. reflexivity. }
  unfold ret at 1. unfold try_except at 1. unfold bind at 1.
  destruct (getsize e) as [x|n].
  { unfold raise. by rewrite update_count_file_eq. }
  unfold ret at 1. unfold bind at 1.
  destruct (n =? 0)%N.
  { unfold bind at 1. rewrite update_count_file_eq. unfold return_. reflexivity. }
  unfold ret at 1. unfold bind at 1.
  destruct (first_readable e encodings) as [c|].
  - unfold ret at 1. by rewrite ingest_run.
  - unfold try_except at 1. destruct (read_binary e) as [x|c].
    + unfold raise. unfold bind at 1. rewrite update_count_file_eq. reflexivity.
    + unfold ret at 1. by rewrite ingest_run.
Qed.

(** ** Lemmas on the patterns *)

Lemma star_greedy_none {A} (p : ascii -> bool) (s : string) (k : string -> option A) :
  Re.star Re.Greedy p s k = None -> k s = None.
Proof.
  destruct s as [|c s]; simpl; [done|].
  destruct (p c); [|done]. by destruct (Re.star Re.Greedy p s k).
Qed.

(** A greedy and a lazy star followed by the same thing succeed on the
    same texts: they try the same splits, in opposite orders. *)
Lemma star_greedy_lazy_none {A} (p : ascii -> bool) (s : string) (k : string -> option A) :
  Re.star Re.Greedy p s k = None <-> Re.star Re.Lazy p s k = None.
Proof.
  induction s as [|c s IH]; simpl.
  - by destruct (k EmptyString).
  - destruct (p c).
    + destruct (Re.star Re.Greedy p s k) eqn:Hg, (k (String c s)) eqn:Hk;
        split; intros H; try done; apply IH; done.
    + by destruct (k (String c s)).
Qed.

(** Under IGNORECASE the literal and the two-letter set accept the same
    characters. *)
Lemma lit_set_ignorecase (c : ascii) :
  Re.atom_ok IGNORECASE (Re.Lit "P") c = Re.atom_ok IGNORECASE (Re.Set_ ["P"; "p"]%char) c ∧
  Re.atom_ok IGNORECASE (Re.Lit "C") c = Re.atom_ok IGNORECASE (Re.Set_ ["C"; "c"]%char) c ∧
  Re.atom_ok IGNORECASE (Re.Lit "B") c = Re.atom_ok IGNORECASE (Re.Set_ ["B"; "b"]%char) c.
Proof. destruct c as [[] [] [] [] [] [] [] []]; vm_compute; done. Qed.

Lemma match_at_primary_fallback (s : string) :
  Re.match_at IGNORECASE PCB_ID_PATTERN s = None <->
  Re.match_at IGNORECASE FALLBACK_PATTERN s = None.
Proof.
  unfold Re.match_at, PCB_ID_PATTERN, FALLBACK_PATTERN.
  destruct s as [|c1 s]; [done|]. cbn [Re.exec].
  destruct (lit_set_ignorecase c1) as (-> & _ & _).
  destruct (Re.atom_ok _ _ c1); [|done].
  destruct s as [|c2 s]; [done|].
  destruct (lit_set_ignorecase c2) as (_ & -> & _).
  destruct (Re.atom_ok _ _ c2); [|done].
  destruct s as [|c3 s]; [done|].
  destruct (lit_set_ignorecase c3) as (_ & _ & ->).
  destruct (Re.atom_ok _ _ c3); [|done].
  apply star_greedy_lazy_none.
Qed.

Lemma findall_primary_fallback_nil (s : string) :
  Re.findall IGNORECASE PCB_ID_PATTERN s = [] <->
  Re.findall IGNORECASE FALLBACK_PATTERN s = [].
Proof.
  unfold Re.findall. induction s as [|c s IH].
  - done.
  - cbn [Re.findall_from].
    destruct (Re.match_at IGNORECASE PCB_ID_PATTERN (String c s)) as [[caps rest]|] eqn:Hp;
    destruct (Re.match_at IGNORECASE FALLBACK_PATTERN (String c s)) as [[caps' rest']|] eqn:Hf;
      try done.
    + apply match_at_primary_fallback in Hf. congruence.
    + apply match_at_primary_fallback in Hp. congruence.
Qed.

(** A greedy star before something that always succeeds takes the whole
    run. *)
Lemma star_greedy_total {A} (p : ascii -> bool) (s : string) (f : string -> A) :
  Re.star Re.Greedy p s (fun s1 => Some (f s1)) = Some (f (drop_while p s)).
Proof.
  induction s as [|c s IH]; simpl; [done|].
  destruct (p c); [by rewrite IH | done].
Qed.

Lemma digits_group_eq (s : string) :
  digits_group s =
  match s with
  | String c s' =>
      if Py.isdecimal c
      then Some ([Re.consumed s (drop_while Py.isdecimal s')], drop_while Py.isdecimal s')
      else None
  | EmptyString => None
  end.
Proof.
  unfold digits_group. destruct s as [|c s']; [done|]. cbn [Re.exec Re.atom_ok].
  destruct (Py.isdecimal c); [|done].
  by rewrite (star_greedy_total _ _ (fun s1 => (([] ++ [Re.consumed (String c s') s1])%list, s1))).
Qed.

Lemma consumed_one (c : ascii) (s : string) :
  Re.consumed (String c s) s = String c EmptyString.
Proof.
  unfold Re.consumed. cbn [String.length].
  replace (S (String.length s) - String.length s) with 1 by lia. done.
Qed.

(** After the greedy gap, the group is left with one digit: the last digit
    of the line. *)
Lemma greedy_gap_single (s : string) (caps : list string) (rest : string) :
  Re.star Re.Greedy (Re.atom_ok IGNORECASE Re.Dot) s digits_group = Some (caps, rest) ->
  ∃ d, Py.isdecimal d = true ∧ caps = [String d EmptyString].
Proof.
  induction s as [|c s IH]; cbn [Re.star]; [done|].
  destruct (Re.atom_ok IGNORECASE Re.Dot c) eqn:Hdot.
  - destruct (Re.star Re.Greedy _ s digits_group) as [r|] eqn:Hin.
    + intros [= ->]. by apply IH.
    + apply star_greedy_none in Hin. rewrite digits_group_eq in Hin |- *.
      destruct (Py.isdecimal c) eqn:Hc; [|done].
      assert (Hd : drop_while Py.isdecimal s = s).
      { destruct s as [|c' s']; [done|]. simpl. by destruct (Py.isdecimal c'). }
      rewrite Hd, consumed_one. intros [= <- _]. eauto.
  - cbn in Hdot. apply negb_false_iff, Ascii.eqb_eq in Hdot. subst c.
    by rewrite digits_group_eq.
Qed.

(** A star followed by [k] succeeds exactly when the text splits into a
    run of the class and a rest on which [k] succeeds. *)
Lemma star_greedy_split {A} (p : ascii -> bool) (s : string) (k : string -> option A) :
  Re.star Re.Greedy p s k ≠ None <->
  ∃ a b, s = a ++ b ∧ Py.all_chars p a = true ∧ k b ≠ None.
Proof.
  induction s as [|c s IH]; cbn [Re.star].
  - split.
    + intros Hk. by exists EmptyString, EmptyString.
    + intros (a & b & Hs & _ & Hk). destruct a; [|done]. by rewrite append_empty_l in Hs; subst b.
  - destruct (p c) eqn:Hc.
    + split.
      * destruct (Re.star Re.Greedy p s k) as [r|] eqn:Hin.
        -- intros _. destruct (proj1 IH) as (a & b & -> & Ha & Hk); [done|].
           exists (String c a), b. rewrite append_cons. by cbn; rewrite Hc, Ha.
        -- intros Hk. by exists EmptyString, (String c s).
      * intros (a & b & Hs & Ha & Hk). destruct a as [|c' a].
        -- rewrite append_empty_l in Hs. subst b. by destruct (Re.star Re.Greedy p s k).
        -- rewrite append_cons in Hs. injection Hs as <- ->.
           cbn in Ha. apply andb_true_iff in Ha as [_ Ha].
           destruct IH as [_ IH]. specialize (IH (ex_intro _ a (ex_intro _ b (conj eq_refl (conj Ha Hk))))).
           by destruct (Re.star Re.Greedy p (a ++ b) k).
    + split.
      * intros Hk. by exists EmptyString, (String c s).
      * intros (a & b & Hs & Ha & Hk). destruct a as [|c' a].
        -- rewrite append_empty_l in Hs. by subst b.
        -- rewrite append_cons in Hs. injection Hs as <- ->. cbn in Ha. by rewrite Hc in Ha.
Qed.

Lemma digits_group_some (s : string) :
  digits_group s ≠ None <-> ∃ d post, s = String d post ∧ Py.isdecimal d = true.
Proof.
  rewrite digits_group_eq. destruct s as [|c s].
  - split; [done | by intros (d & post & ? & _)].
  - destruct (Py.isdecimal c) eqn:Hc; split; try done; eauto.
    intros (d & post & [= <- <-] & Hd). congruence.
Qed.

Lemma lower_pcb (c1 c2 c3 : ascii) :
  Py.lower (String c1 (String c2 (String c3 EmptyString))) = "pcb" <->
  Re.atom_ok IGNORECASE (Re.Lit "P") c1 = true ∧
  Re.atom_ok IGNORECASE (Re.Lit "C") c2 = true ∧
  Re.atom_ok IGNORECASE (Re.Lit "B") c3 = true.
Proof.
  cbn [Py.lower Re.atom_ok]. unfold Re.same_char, IGNORECASE.
  rewrite !Ascii.eqb_eq. split.
  - by intros [= -> -> ->].
  - intros (H1 & H2 & H3). rewrite H1, H2, H3. reflexivity.
Qed.

Lemma match_at_primary_some (s : string) :
  Re.match_at IGNORECASE PCB_ID_PATTERN s ≠ None <->
  ∃ c1 c2 c3 gap d post,
    s = String c1 (String c2 (String c3 (gap ++ String d post))) ∧
    Py.lower (String c1 (String c2 (String c3 EmptyString))) = "pcb" ∧
    Py.all_chars (fun c => negb (Ascii.eqb c Py.LF)) gap = true ∧
    Py.isdecimal d = true.
Proof.
  split.
  - unfold Re.match_at, PCB_ID_PATTERN.
    destruct s as [|c1 s]; [done|]. cbn [Re.exec].
    destruct (Re.atom_ok _ _ c1) eqn:H1; [|done].
    destruct s as [|c2 s]; [done|]. destruct (Re.atom_ok _ _ c2) eqn:H2; [|done].
    destruct s as [|c3 s]; [done|]. destruct (Re.atom_ok _ _ c3) eqn:H3; [|done].
    intros Hm. apply (star_greedy_split _ _ digits_group) in Hm as (gap & b & -> & Hgap & Hb).
    apply digits_group_some in Hb as (d & post & -> & Hd).
    exists c1, c2, c3, gap, d, post. by rewrite lower_pcb.
  - intros (c1 & c2 & c3 & gap & d & post & -> & (H1 & H2 & H3)%lower_pcb & Hgap & Hd).
    unfold Re.match_at, PCB_ID_PATTERN. cbn [Re.exec]. rewrite H1, H2, H3.
    apply (star_greedy_split _ _ digits_group). exists gap, (String d post).
    split; [done|]. split; [done|]. apply digits_group_some. eauto.
Qed.

Lemma findall_some (ic : bool) (r : Re.regex) (s : string) :
  Re.findall ic r s ≠ [] <->
  ∃ pre suf, s = pre ++ suf ∧ Re.match_at ic r suf ≠ None.
Proof.
  unfold Re.findall. induction s as [|c s IH]; cbn [Re.findall_from].
  - split.
    + destruct (Re.match_at ic r EmptyString) as [[caps rest]|] eqn:Hm; [|done].
      intros _. exists EmptyString, EmptyString. by rewrite Hm.
    + intros (pre & suf & Hs & Hm). destruct pre; [|done].
      rewrite append_empty_l in Hs. subst suf.
      by destruct (Re.match_at ic r EmptyString) as [[caps rest]|].
  - split.
    + destruct (Re.match_at ic r (String c s)) as [[caps rest]|] eqn:Hm.
      * intros _. exists EmptyString, (String c s). by rewrite Hm.
      * intros (pre & suf & -> & Hs)%IH. exists (String c pre), suf. by rewrite append_cons.
    + intros (pre & suf & Hs & Hm). destruct pre as [|c' pre].
      * rewrite append_empty_l in Hs. subst suf.
        by destruct (Re.match_at ic r (String c s)) as [[caps rest]|].
      * rewrite append_cons in Hs. injection Hs as <- ->.
        destruct (Re.match_at ic r (String c (pre ++ suf))) as [[caps rest]|]; [done|].
        apply IH. eauto.
Qed.

(** The primary pattern finds something exactly in the texts that have
    [pcb], in any case, and a digit later on the same line. *)
Lemma findall_primary_some (s : string) :
  Re.findall IGNORECASE PCB_ID_PATTERN s ≠ [] <-> pcb_then_digit s.
Proof.
  rewrite findall_some. unfold pcb_then_digit. split.
  - intros (pre & suf & -> & (c1 & c2 & c3 & gap & d & post & -> & H)%match_at_primary_some).
    by exists pre, c1, c2, c3, gap, d, post.
  - intros (pre & c1 & c2 & c3 & gap & d & post & -> & H).
    eexists pre, _. split; [done|]. apply match_at_primary_some.
    by exists c1, c2, c3, gap, d, post.
Qed.

Lemma match_at_primary_single (s : string) (caps : list string) (rest : string) :
  Re.match_at IGNORECASE PCB_ID_PATTERN s = Some (caps, rest) ->
  ∃ d, Py.isdecimal d = true ∧ caps = [String d EmptyString].
Proof.
  unfold Re.match_at, PCB_ID_PATTERN.
  destruct s as [|c1 s]; [done|]. cbn [Re.exec].
  destruct (Re.atom_ok _ _ c1); [|done].
  destruct s as [|c2 s]; [done|]. destruct (Re.atom_ok _ _ c2); [|done].
  destruct s as [|c3 s]; [done|]. destruct (Re.atom_ok _ _ c3); [|done].
  apply greedy_gap_single.
Qed.

(** Every identifier the primary pattern yields is one digit long. *)
Lemma findall_primary_single (s : string) (skip : nat) (pcb_id : string) :
  pcb_id ∈ Re.findall_from IGNORECASE PCB_ID_PATTERN s skip -> single_digit pcb_id.
Proof.
  revert skip. induction s as [|c s IH]; intros skip.
  - destruct skip; cbn; inversion 1.
  - destruct skip as [|n]; cbn [Re.findall_from]; [|apply IH].
    destruct (Re.match_at _ _ (String c s)) as [[caps rest]|] eqn:Hm; [|apply IH].
    apply match_at_primary_single in Hm as (d & Hd & ->).
    intros [->|Hin]%elem_of_cons; [by exists d | by eapply IH].
Qed.

(** ** What a pass does to the handler and to each artifact *)

Lemma pass_eq (e : env) (w : world) :
  pass e w =
  after_count (open_count e) (fault_count e)
    match snapshot e with
    | Some content => ingest e content (day_change e w)
    | None => day_change e w
    end.
Proof. unfold pass. by rewrite process_log_file_eq. Qed.

Lemma self_block a chunks f w : self (block a chunks f w) = self w.
Proof.
  unfold block. destruct f as [[[k x] rem]|]; [|done]. by destruct (_ <=? _)%nat.
Qed.

Lemma self_after_count o f w : self (after_count o f w) = self w.
Proof. destruct o; [done | apply self_block]. Qed.

Lemma self_after_lines e c w : self (after_lines e c w) = self w.
Proof. unfold after_lines. destruct (open_lines e); [done | apply self_block]. Qed.

Lemma self_after_save e w : self (after_save e w) = self w.
Proof.
  unfold after_save. destruct (open_total e); [done|].
  destruct (Py.sorted _ _); apply self_block.
Qed.

(** With nothing going wrong on the open file, a block rewrites the file. *)
Lemma block_no_fault a chunks w : block a chunks None w = rewrite_file a chunks w.
Proof. done. Qed.

Lemma total_day_change e w :
  total_pcb_ids (self (day_change e w)) = total_pcb_ids (self w).
Proof. unfold day_change. case_bool_decide; [by rewrite self_after_count | done]. Qed.

Lemma total_ingest e c w :
  total_pcb_ids (self (ingest e c w)) =
  total_pcb_ids (self w) ∪ list_to_set (extract_pcb_ids c).
Proof.
  unfold ingest. case_bool_decide; rewrite ?self_after_save; unfold merged;
    cbn [self total_pcb_ids]; by rewrite self_after_lines.
Qed.

Lemma total_pass e w :
  total_pcb_ids (self (pass e w)) =
  match snapshot e with
  | Some c => total_pcb_ids (self w) ∪ list_to_set (extract_pcb_ids c)
  | None => total_pcb_ids (self w)
  end.
Proof.
  rewrite pass_eq, self_after_count.
  destruct (snapshot e); by rewrite ?total_ingest, total_day_change.
Qed.

Lemma leaves_refl a w : leaves a w w.
Proof. split; [done|]. by exists []. Qed.

Lemma leaves_trans a w1 w2 w3 : leaves a w1 w2 -> leaves a w2 w3 -> leaves a w1 w3.
Proof.
  intros [Hf (evs & Ht & Hall)] [Hf' (evs' & Ht' & Hall')]. split; [congruence|].
  exists (evs' ++ evs)%list. split; [by rewrite Ht', Ht, app_assoc|].
  by apply Forall_app.
Qed.

Lemma leaves_denied a b x w : a ≠ b -> leaves a w (denied b x w).
Proof.
  intros Hne. split; [done|]. exists [Denied b x]. split; [done|].
  by repeat constructor.
Qed.

Lemma leaves_rewrite_file a b chunks w : a ≠ b -> leaves a w (rewrite_file b chunks w).
Proof.
  intros Hne. split; [by apply file_at_set_file_ne|].
  exists (rev (map (Written b) chunks) ++ [Opened b])%list. split.
  - cbn [rewrite_file trace]. by rewrite <- app_assoc.
  - apply Forall_app. split; [|by repeat constructor].
    apply Forall_rev, Forall_map, Forall_forall. by intros.
Qed.

Lemma leaves_faulted a b done x rem w : a ≠ b -> leaves a w (faulted b done x rem w).
Proof.
  intros Hne. split; [by apply file_at_set_file_ne|].
  exists (Failed b x :: rev (map (Written b) done) ++ [Opened b])%list. split.
  - cbn [faulted trace]. by rewrite <- app_comm_cons, <- app_assoc.
  - constructor; [done|]. apply Forall_app. split; [|by repeat constructor].
    apply Forall_rev, Forall_map, Forall_forall. by intros.
Qed.

Lemma leaves_block a b chunks f w : a ≠ b -> leaves a w (block b chunks f w).
Proof.
  intros Hne. unfold block. destruct f as [[[k x] rem]|]; [|by apply leaves_rewrite_file].
  destruct (_ <=? _)%nat; [by apply leaves_faulted | by apply leaves_rewrite_file].
Qed.

Lemma leaves_after_count a o f w : a ≠ COUNT_FILE_PATH -> leaves a w (after_count o f w).
Proof. destruct o; [apply leaves_denied | apply leaves_block]. Qed.

Lemma leaves_after_lines a e c w : a ≠ PCB_LINES_PATH -> leaves a w (after_lines e c w).
Proof.
  unfold after_lines. destruct (open_lines e); [apply leaves_denied | apply leaves_block].
Qed.

Lemma leaves_set_self a h w : leaves a w (World h (disk w) (trace w)).
Proof. split; [done|]. by exists []. Qed.

Lemma leaves_day_change a e w : a ≠ COUNT_FILE_PATH -> leaves a w (day_change e w).
Proof.
  intros Hne. unfold day_change. case_bool_decide; [|apply leaves_refl].
  eapply leaves_trans; [apply leaves_set_self | by apply leaves_after_count].
Qed.



Lemma leaves_after_save a e w : a ≠ TOTAL_PCB_FILE -> leaves a w (after_save e w).
Proof.
  unfold after_save. destruct (open_total e); [apply leaves_denied|].
  destruct (Py.sorted _ _); apply leaves_block.
Qed.

(** The extraction steps do not touch the count file. *)
Lemma leaves_ingest_count e c w : leaves COUNT_FILE_PATH w (ingest e c w).
Proof.
  unfold ingest.
  assert (Hm : leaves COUNT_FILE_PATH w (merged c (after_lines e c w))).
  { eapply leaves_trans; [by apply leaves_after_lines | apply leaves_set_self]. }
  case_bool_decide; [|done].
  eapply leaves_trans; [exact Hm | by apply leaves_after_save].
Qed.


(** ** The identifier set over a run *)

Lemma total_pass_grows (e : env) (w : world) :
  total_pcb_ids (self w) ⊆ total_pcb_ids (self (pass e w)).
Proof. rewrite total_pass. destruct (snapshot e); set_solver. Qed.

Lemma count_file_after_pass (e : env) (w : world) :
  open_count e = None -> fault_count e = None ->
  count_file (disk (pass e w)) = Some (count_line (pass e w)).
Proof. intros Ho Hf. by rewrite pass_eq, Ho, Hf. Qed.

(** C2. Over any sequence of passes, whatever the clock and the operating
    system answer (day changes included), every identifier of the set is
    still in the set afterwards, and the size of the set does not
    decrease. *)
Theorem total_pcb_ids_only_grows (es : list env) (w : world) :
  total_pcb_ids (self w) ⊆ total_pcb_ids (self (run es w)) ∧
  size (total_pcb_ids (self w)) <= size (total_pcb_ids (self (run es w))).
Proof.
  assert (Hsub : total_pcb_ids (self w) ⊆ total_pcb_ids (self (run es w))).
  { revert w. induction es as [|e es IH]; intros w; [done|].
    cbn [run foldl]. etrans; [apply (total_pass_grows e)|apply IH]. }
  split; [done | by apply subseteq_size].
Qed.



(** C4, as amended. Whatever path the pass takes (missing source, failed
    copy, empty backup, unreadable backup, any exception on the way), it
    ends normally and its last file operation is on the count file. When
    the open, the write and the close go through, the size of the set as it
    is at the end of the pass is written, and the count file holds it. When
    the open is refused, nothing is written and the count file is as the
    steps before left it. When the write or the close raises, the count
    file holds what that failure left in it. *)
Theorem count_file_refresh_ends_the_pass (e : env) (w : world) :
  (process_log_file e w).1 = Val tt ∧
  (∃ ev t, trace (pass e w) = ev :: t ∧ event_artifact ev = COUNT_FILE_PATH) ∧
  (open_count e = None -> fault_count e = None ->
   count_file (disk (pass e w)) = Some (Py.str (size (total_pcb_ids (self (pass e w)))) ++ nl) ∧
   ∃ t, trace (pass e w) =
        Written COUNT_FILE_PATH (Py.str (size (total_pcb_ids (self (pass e w)))) ++ nl)
          :: Opened COUNT_FILE_PATH :: t) ∧
  (∀ x, open_count e = Some x ->
   count_file (disk (pass e w)) = count_file (disk (day_change e w)) ∧
   ∃ t, trace (pass e w) = Denied COUNT_FILE_PATH x :: t) ∧
  (∀ k x rem, open_count e = None -> fault_count e = Some (k, x, rem) -> k <= 1 ->
   count_file (disk (pass e w)) = Some rem ∧
   ∃ t, trace (pass e w) = Failed COUNT_FILE_PATH x :: t).
Proof.
  split; [by rewrite process_log_file_eq|].
  rewrite pass_eq.
  set (w' := match snapshot e with
             | Some c => ingest e c (day_change e w)
             | None => day_change e w
             end).
  split; [|split; [|split]].
  - unfold after_count, block.
    destruct (open_count e) as [x|]; [by eexists _, _|].
    destruct (fault_count e) as [[[k x] rem]|]; [|by eexists _, _].
    destruct (_ <=? _)%nat; by eexists _, _.
  - intros -> ->. cbn [after_count block rewrite_file self disk trace set_file count_file
                       map rev app]. unfold count_line. eauto.
  - intros x ->. cbn [after_count denied disk trace]. split; [|eauto].
    unfold w'. destruct (snapshot e) as [c|]; [|done].
    by destruct (leaves_ingest_count e c (day_change e w)) as [Hf _].
  - intros k x rem -> -> Hk. cbn [after_count block length].
    rewrite (proj2 (Nat.leb_le k 1) Hk). cbn [faulted disk trace set_file count_file]. eauto.
Qed.

(** C4, as stated, fails: from the handler as [main] starts it, a pass that
    finds the new identifier 1 while the count file cannot be opened ends
    normally with a set of size 1 and a count file still reading 0. *)
Lemma count_file_stale_when_open_refused :
  (process_log_file env_count_refused started).1 = Val tt ∧
  total_pcb_ids (self (pass env_count_refused started)) = {["1"]} ∧
  count_file (disk (pass env_count_refused started)) = Some ("0" ++ nl) ∧
  count_file (disk (pass env_count_refused started)) ≠
    Some (Py.str (size (total_pcb_ids (self (pass env_count_refused started)))) ++ nl).
Proof. vm_compute. repeat split; congruence. Qed.

(** C9, as amended. A call of [process_log_file] always ends normally: no
    exception leaves it, whatever the operating system answers. When the
    source log does not exist, the set is as before, and when the count
    file can be opened, written and closed, it holds the size of the set
    after the pass. *)
Theorem process_log_file_never_raises (e : env) (w : world) :
  (process_log_file e w).1 = Val tt ∧
  (source_exists e = false ->
   total_pcb_ids (self (pass e w)) = total_pcb_ids (self w) ∧
   (open_count e = None -> fault_count e = None ->
    count_file (disk (pass e w)) = Some (Py.str (size (total_pcb_ids (self w))) ++ nl))).
Proof.
  split; [by rewrite process_log_file_eq|].
  intros Hmiss.
  assert (Hsnap : snapshot e = None) by (unfold snapshot; by rewrite Hmiss).
  assert (Htot : total_pcb_ids (self (pass e w)) = total_pcb_ids (self w))
    by (by rewrite total_pass, Hsnap).
  split; [done|]. intros Ho Hf.
  rewrite count_file_after_pass by done. unfold count_line. by rewrite Htot.
Qed.

(** C9, as stated, fails: with the set holding one identifier and the count
    file reading 0, a pass that finds no source log and cannot open the
    count file ends normally and leaves the count file reading 0. *)
Lemma missing_source_leaves_stale_count :
  source_exists env_missing_refused = false ∧
  (process_log_file env_missing_refused (pass env_count_refused started)).1 = Val tt ∧
  total_pcb_ids (self (pass env_missing_refused (pass env_count_refused started))) = {["1"]} ∧
  count_file (disk (pass env_missing_refused (pass env_count_refused started)))
    = Some ("0" ++ nl).
Proof. vm_compute. done. Qed.

(** ** Sorting by numeric value *)

Lemma insert_by_key_perm {A} (x : Z * A) (l : list (Z * A)) :
  Py.insert_by_key x l ≡ₚ x :: l.
Proof.
  induction l as [|y ys IH]; simpl; [done|].
  destruct (x.1 <=? y.1)%Z; [done|]. rewrite IH. apply Permutation_swap.
Qed.

Lemma sort_keyed_perm {A} (l : list (Z * A)) : Py.sort_keyed l ≡ₚ l.
Proof.
  induction l as [|x l IH]; simpl; [done|].
  by rewrite insert_by_key_perm, IH.
Qed.

Lemma insert_by_key_sorted {A} (x : Z * A) (l : list (Z * A)) :
  StronglySorted key_le l -> StronglySorted key_le (Py.insert_by_key x l).
Proof.
  induction l as [|y ys IH]; intros Hs; simpl.
  - by repeat constructor.
  - apply StronglySorted_inv in Hs as [Hys Hall].
    destruct (x.1 <=? y.1)%Z eqn:Hle.
    + apply Z.leb_le in Hle. constructor; [by constructor|].
      constructor; [done|]. eapply Forall_impl; [exact Hall|].
      unfold key_le. intros z Hz. lia.
    + apply Z.leb_gt in Hle. constructor; [by apply IH|].
      rewrite insert_by_key_perm. constructor; [unfold key_le; lia | done].
Qed.

Lemma sort_keyed_sorted {A} (l : list (Z * A)) : StronglySorted key_le (Py.sort_keyed l).
Proof.
  induction l as [|x l IH]; simpl; [constructor | by apply insert_by_key_sorted].
Qed.

Lemma keyed_Some {A} (key : A -> option Z) (l : list A) :
  Forall (fun x => is_Some (key x)) l ->
  ∃ kl, Py.keyed key l = Some kl ∧ kl.*2 = l ∧ Forall (fun p => key p.2 = Some p.1) kl.
Proof.
  induction 1 as [|x l [k Hk] _ (kl & Hkl & Hsnd & Hall)]; simpl.
  - by exists [].
  - rewrite Hk, Hkl. exists ((k, x) :: kl). repeat split; [by rewrite <- Hsnd|].
    by constructor.
Qed.

(** [sorted(l, key=int)] on strings [int] can read: a rearrangement of [l]
    in ascending numeric order. *)
Lemma sorted_int_spec (l : list string) :
  Forall (fun x => is_Some (Py.int x)) l ->
  ∃ ids, Py.sorted Py.int l = Some ids ∧ ids ≡ₚ l ∧ StronglySorted int_le ids.
Proof.
  intros (kl & Hkl & Hsnd & Hall)%keyed_Some.
  exists (Py.sort_keyed kl).*2. unfold Py.sorted. rewrite Hkl. split; [done|]. split.
  - by rewrite sort_keyed_perm, Hsnd.
  - assert (Hall' : Forall (fun p => Py.int p.2 = Some p.1) (Py.sort_keyed kl))
      by (by rewrite sort_keyed_perm).
    pose proof (sort_keyed_sorted kl) as Hs.
    induction Hs as [|p ps Hps IH Hhd]; [constructor|].
    apply Forall_cons in Hall' as [Hp Hps']. cbn [fmap list_fmap]. constructor; [by apply IH|].
    apply Forall_fmap, Forall_forall. intros q Hq. cbn.
    rewrite Forall_forall in Hhd, Hps'. specialize (Hhd q Hq). specialize (Hps' q Hq).
    unfold int_le, int_leb. rewrite Hp, Hps'. apply Is_true_true, Z.leb_le, Hhd.
Qed.

Lemma isdecimal_not_space (c : ascii) : Py.isdecimal c = true -> Py.isspace c = false.
Proof. destruct c as [[] [] [] [] [] [] [] []]; vm_compute; congruence. Qed.

Lemma lstrip_decimal (s : string) : Py.all_chars Py.isdecimal s = true -> Py.lstrip s = s.
Proof.
  destruct s as [|c s]; [done|]. cbn. intros [Hc _]%andb_true_iff.
  by rewrite isdecimal_not_space.
Qed.

Lemma rstrip_decimal (s : string) : Py.all_chars Py.isdecimal s = true -> Py.rstrip s = s.
Proof.
  induction s as [|c s IH]; [done|]. cbn. intros [Hc Hs]%andb_true_iff.
  rewrite IH by done. destruct s; [by rewrite isdecimal_not_space | done].
Qed.

Lemma isdecimal_not_int_space (c : ascii) : Py.isdecimal c = true -> Py.int_space c = false.
Proof. destruct c as [[] [] [] [] [] [] [] []]; vm_compute; congruence. Qed.

Lemma int_ltrim_decimal (s : string) :
  Py.all_chars Py.isdecimal s = true -> Py.int_ltrim s = s.
Proof.
  destruct s as [|c s]; [done|]. cbn. intros [Hc _]%andb_true_iff.
  by rewrite isdecimal_not_int_space.
Qed.

Lemma int_rtrim_decimal (s : string) :
  Py.all_chars Py.isdecimal s = true -> Py.int_rtrim s = s.
Proof.
  induction s as [|c s IH]; [done|]. cbn. intros [Hc Hs]%andb_true_iff.
  rewrite IH by done. destruct s; [by rewrite isdecimal_not_int_space | done].
Qed.

Lemma count_digits_decimal (s : string) :
  Py.all_chars Py.isdecimal s = true -> Py.count_digits s = String.length s.
Proof.
  induction s as [|c s IH]; [done|]. cbn. intros [Hc Hs]%andb_true_iff.
  by rewrite Hc, IH.
Qed.

Lemma int_digits_decimal (s : string) (acc : Z) (seen : bool) :
  Py.all_chars Py.isdecimal s = true -> seen || Py.nonempty s = true ->
  is_Some (Py.int_digits s acc seen).
Proof.
  revert acc seen. induction s as [|c s IH]; intros acc seen Hall Hne; cbn.
  - rewrite orb_false_r in Hne. by rewrite Hne.
  - cbn in Hall. apply andb_true_iff in Hall as [Hc Hs]. rewrite Hc. by apply IH.
Qed.

(** [int] reads every non-empty string of decimal digits within the limit
    on the number of digits. *)
Lemma int_decimal (s : string) : short_decimal s = true -> is_Some (Py.int s).
Proof.
  intros [[Hne Hall]%andb_true_iff Hlen]%andb_true_iff. unfold Py.int.
  rewrite int_ltrim_decimal, int_rtrim_decimal by done.
  assert (Hd : is_Some (Py.int_literal s)).
  { unfold Py.int_literal. rewrite count_digits_decimal, Hlen by done.
    apply int_digits_decimal; [done|]. by rewrite Hne, orb_true_r. }
  destruct s as [|c s]; [done|].
  cbn in Hall. apply andb_true_iff in Hall as [Hc _].
  destruct c as [[] [] [] [] [] [] [] []]; try discriminate Hc; exact Hd.
Qed.

(** Closes a goal from a hypothesis whose decision procedure computes to
    false. *)
Ltac refute_by_decide H :=
  exfalso;
  match type of H with
  | ?P => refine (bool_decide_eq_false_1 P _ H); vm_compute; reflexivity
  end.

(** The only ascending arrangement of 2, 10 and 1. *)
Lemma sorted_2_10_1 (ids : list string) :
  ids ≡ₚ elements ({["2"; "10"; "1"]} : gset string) ->
  StronglySorted int_le ids -> ids = ["1"; "2"; "10"].
Proof.
  intros Hperm Hs.
  assert (Hnd : NoDup ids) by (rewrite Hperm; apply NoDup_elements).
  assert (Hin : ∀ x, x ∈ ids -> x = "2" ∨ x = "10" ∨ x = "1").
  { intros x. rewrite Hperm, elem_of_elements, !elem_of_union, !elem_of_singleton. tauto. }
  remember (elements ({["2"; "10"; "1"]} : gset string)) as l eqn:Hl.
  vm_compute in Hl. subst l. apply Permutation_length in Hperm as Hlen. cbn in Hlen.
  destruct ids as [|a [|b [|c [|]]]]; try discriminate Hlen.
  pose proof (Hin a (list_elem_of_here _ _)) as Ha.
  pose proof (Hin b (list_elem_of_further _ _ _ (list_elem_of_here _ _))) as Hb.
  pose proof (Hin c (list_elem_of_further _ _ _
                       (list_elem_of_further _ _ _ (list_elem_of_here _ _)))) as Hc.
  clear Hin Hperm Hlen.
  destruct Ha as [->|[->| ->]], Hb as [->|[->| ->]], Hc as [->|[->| ->]];
    first [ reflexivity | refute_by_decide Hnd | refute_by_decide Hs ].
Qed.

(** C5, as amended. When the store can be opened, written and closed,
    [save_total_pcb_ids] on a set of identifiers of at most 4300 digits
    each (non-empty strings of decimal digits), iterated in any order,
    leaves in the store one identifier per line, each identifier of the set
    once, in ascending numeric order; for the set of 2, 10 and 1 the lines
    are 1, 2, 10. *)
Theorem save_sorts_by_numeric_value (e : env) (w : world) :
  open_total e = None -> fault_total e = None ->
  set_order e (total_pcb_ids (self w)) ≡ₚ elements (total_pcb_ids (self w)) ->
  (∀ x, x ∈ total_pcb_ids (self w) -> short_decimal x = true) ->
  ∃ ids,
    total_pcb_file (disk (save_total_pcb_ids e w).2)
      = Some (String.concat EmptyString (map (fun pcb_id => pcb_id ++ nl) ids)) ∧
    ids ≡ₚ elements (total_pcb_ids (self w)) ∧
    StronglySorted int_le ids ∧
    (total_pcb_ids (self w) = {["2"; "10"; "1"]} -> ids = ["1"; "2"; "10"]).
Proof.
  intros Hopen Hfault Horder Hdec.
  destruct (sorted_int_spec (set_order e (total_pcb_ids (self w)))) as (ids & Hids & Hperm & Hs).
  { apply Forall_forall. intros x Hx. apply int_decimal, Hdec.
    by rewrite Horder, elem_of_elements in Hx. }
  exists ids. rewrite save_total_pcb_ids_eq. unfold after_save. rewrite Hopen, Hids, Hfault.
  split; [done|]. split; [by rewrite Hperm|]. split; [done|].
  intros HS. apply sorted_2_10_1; [|done]. by rewrite Hperm, Horder, HS.
Qed.

(** C5, as stated, fails: for a set holding an identifier of 4301 digits,
    [int] raises in [sorted] after the store was truncated, and the store
    is left empty; and when the store cannot be opened, nothing is
    written. *)
Lemma save_leaves_no_sorted_store :
  Py.isdecimal_str digits_4301 = true ∧
  Py.int digits_4301 = None ∧
  total_pcb_file (disk (save_total_pcb_ids (env_reading EmptyString) holding_digits_4301).2)
    = Some EmptyString ∧
  total_pcb_file (disk (save_total_pcb_ids env_store_refused holding_2_10_1).2) = None.
Proof. vm_compute. done. Qed.

(** ** Loading the store *)

(** [load_total_pcb_ids] never raises and leaves the world as it is. *)
Lemma load_total_pcb_ids_eq (o : option exn) (w : world) :
  load_total_pcb_ids o w = (Val (loaded (total_pcb_file (disk w)) o), w).
Proof.
  unfold load_total_pcb_ids, loaded, try_except, bind, get_disk.
  destruct (total_pcb_file (disk w)); [|done]. by destruct o.
Qed.

(** The lines that are kept: trimmed, and accepted by [str.isdigit]. *)
Lemma loaded_spec (content x : string) :
  x ∈ loaded (Some content) None <->
  ∃ line, line ∈ Py.readlines content ∧ x = Py.strip line ∧ Py.isdigit x = true.
Proof.
  unfold loaded. rewrite elem_of_list_to_set, list_elem_of_fmap. split.
  - intros (line & -> & [Hd Hin]%list_elem_of_filter). exists line.
    by apply Is_true_true in Hd.
  - intros (line & Hin & -> & Hd). exists line. split; [done|].
    apply list_elem_of_filter. split; [by apply Is_true_true | done].
Qed.

(** C6. A line holding the superscript digit U+00B2 passes [isdigit] and is
    loaded as an identifier, though it is not a string of decimal digits and
    [int] does not read it; the next pass that finds a new identifier then
    fails in [sorted(..., key=int)] after the store was truncated, and the
    store is left empty. *)
Theorem load_keeps_superscript_digit :
  let two := String SUPERSCRIPT_TWO EmptyString in
  total_pcb_ids (self (started_on (two ++ nl))) = {[two]} ∧
  Py.isdecimal_str two = false ∧
  Py.int two = None ∧
  total_pcb_file (disk (pass (env_reading "PCB1") (started_on (two ++ nl))))
    = Some EmptyString.
Proof. vm_compute. done. Qed.

(** ** The PCB lines file *)




(** C8. A snapshot whose only line holds uppercase PCB gives a PCB lines
    file with the two headers, a count of 0 and no line: the test of line
    130 looks for uppercase PCB in the lowered line, and for lowercase pcb
    in the line as it is. *)
Theorem pcb_lines_miss_uppercase :
  is_pcb_line "PCB0012" = false ∧
  pcb_lines_file (disk (pass (env_reading ("PCB0012" ++ nl)) fresh))
    = Some ("Date: 2024-01-01 00:00:00" ++ nl ++ "PCB-related lines (0):" ++ nl).
Proof. vm_compute. done. Qed.

(** ** Extraction *)

(** C1. The primary pattern's gap [.*] is greedy, so its group is left with
    one digit, the last of the line: every identifier it yields is one
    digit long. From an empty set, the text with PCB0012 twice and PCB0013
    once, one per line, gives the set of 2 and 3; on one line, it gives the
    set of 3 alone and a count file reading 1. *)
Theorem primary_pattern_keeps_last_digit :
  (∀ content pcb_id,
     pcb_id ∈ Re.findall IGNORECASE PCB_ID_PATTERN content -> single_digit pcb_id) ∧
  total_pcb_ids (self (pass (env_reading three_lines) fresh)) = {["2"; "3"]} ∧
  count_file (disk (pass (env_reading three_lines) fresh)) = Some ("2" ++ nl) ∧
  total_pcb_ids (self (pass (env_reading one_line) fresh)) = {["3"]} ∧
  count_file (disk (pass (env_reading one_line) fresh)) = Some ("1" ++ nl).
Proof.
  split; [intros content pcb_id; apply findall_primary_single|].
  vm_compute. done.
Qed.

(** C7. On lowercase pcb0012 the fallback pattern captures 0012, while the
    primary pattern captures 2, under IGNORECASE on the same text as well
    as case-sensitively on the text with the token in uppercase. *)
Theorem fallback_and_primary_differ :
  Re.findall IGNORECASE FALLBACK_PATTERN "pcb0012" = ["0012"] ∧
  Re.findall IGNORECASE PCB_ID_PATTERN "pcb0012" = ["2"] ∧
  Re.findall false PCB_ID_PATTERN "PCB0012" = ["2"].
Proof. vm_compute. done. Qed.

(** C10. The primary pattern finds nothing exactly when the fallback
    pattern finds nothing: each of them finds something exactly when the
    text has pcb, in any case, and a digit later on the same line. So the
    fallback never adds an identifier: the extracted list is the primary
    pattern's list. *)
Theorem fallback_never_contributes (content : string) :
  (Re.findall IGNORECASE PCB_ID_PATTERN content = [] <->
   Re.findall IGNORECASE FALLBACK_PATTERN content = []) ∧
  (Re.findall IGNORECASE PCB_ID_PATTERN content ≠ [] <-> pcb_then_digit content) ∧
  (Re.findall IGNORECASE FALLBACK_PATTERN content ≠ [] <-> pcb_then_digit content) ∧
  extract_pcb_ids content = Re.findall IGNORECASE PCB_ID_PATTERN content.
Proof.
  pose proof (findall_primary_fallback_nil content) as Hnil.
  pose proof (findall_primary_some content) as Hsome.
  split; [done|]. split; [done|]. split; [tauto|].
  unfold extract_pcb_ids.
  destruct (Re.findall IGNORECASE PCB_ID_PATTERN content) eqn:Hp; [|done].
  by apply Hnil.
Qed.

(** ** The theorems at concrete inputs *)


Lemma count_file_refresh_ends_the_pass_witness :
  open_count env_missing = None ∧ fault_count env_missing = None ∧
  count_file (disk (pass env_missing holding_2_10_1)) = Some ("3" ++ nl).
Proof.
  split; [reflexivity|]. split; [reflexivity|].
  exact (proj1 (proj1 (proj2 (proj2 (count_file_refresh_ends_the_pass env_missing
                                       holding_2_10_1))) eq_refl eq_refl)).
Defined.

Lemma short_decimal_holding_2_10_1 :
  ∀ x, x ∈ total_pcb_ids (self holding_2_10_1) -> short_decimal x = true.
Proof.
  intros x. cbn [holding_2_10_1 self total_pcb_ids].
  rewrite !elem_of_union, !elem_of_singleton. by intros [[-> | ->] | ->].
Defined.

Lemma save_sorts_by_numeric_value_witness :
  ∃ ids,
    total_pcb_file (disk (save_total_pcb_ids (env_reading EmptyString) holding_2_10_1).2)
      = Some (String.concat EmptyString (map (fun pcb_id => pcb_id ++ nl) ids)) ∧
    ids = ["1"; "2"; "10"].
Proof.
  destruct (save_sorts_by_numeric_value (env_reading EmptyString) holding_2_10_1)
    as (ids & Hfile & _ & _ & Hids).
  - reflexivity.
  - reflexivity.
  - reflexivity.
  - exact short_decimal_holding_2_10_1.
  - exists ids. split; [exact Hfile | by apply Hids].
Defined.

Lemma process_log_file_never_raises_witness :
  source_exists env_missing = false ∧
  (process_log_file env_missing holding_2_10_1).1 = Val tt ∧
  count_file (disk (pass env_missing holding_2_10_1)) = Some ("3" ++ nl).
Proof.
  destruct (process_log_file_never_raises env_missing holding_2_10_1) as [Hval Hmiss].
  split; [reflexivity|]. split; [exact Hval|].
  exact (proj2 (Hmiss eq_refl) eq_refl eq_refl).
Defined.

(** ** The store, written and read back *)

Lemma isdecimal_not_newline (c : ascii) :
  Py.isdecimal c = true -> Ascii.eqb c Py.LF || Ascii.eqb c Py.CR = false.
Proof. destruct c as [[] [] [] [] [] [] [] []]; vm_compute; congruence. Qed.

Lemma isdecimal_isdigit_char (c : ascii) :
  Py.isdecimal c = true -> Py.isdigit_char c = true.
Proof. unfold Py.isdigit_char. by intros ->. Qed.

Lemma isdecimal_str_isdigit (x : string) :
  Py.isdecimal_str x = true -> Py.isdigit x = true.
Proof.
  unfold Py.isdecimal_str, Py.isdigit. intros [-> Hall]%andb_true_iff. cbn.
  induction x as [|c x IH]; [done|]. cbn in *.
  apply andb_true_iff in Hall as [Hc Hx]. by rewrite isdecimal_isdigit_char, IH.
Qed.

(** A line of decimal digits and its line feed are read back as one line. *)
Lemma readlines_decimal_line (x rest : string) :
  Py.all_chars Py.isdecimal x = true ->
  Py.readlines (x ++ nl ++ rest) = (x ++ nl) :: Py.readlines rest.
Proof.
  induction x as [|c x IH]; intros Hall.
  - rewrite !append_empty_l. unfold nl. rewrite append_cons, append_empty_l.
    cbn [Py.readlines]. change (Ascii.eqb Py.LF Py.LF) with true. cbn [orb].
    change (Ascii.eqb Py.LF Py.CR) with false. cbn [andb]. by destruct rest.
  - cbn in Hall. apply andb_true_iff in Hall as [Hc Hx].
    rewrite !append_cons. cbn [Py.readlines].
    rewrite (isdecimal_not_newline c Hc), (IH Hx). done.
Qed.

Lemma readlines_store (ids : list string) :
  Forall (fun x => Py.isdecimal_str x = true) ids ->
  Py.readlines (String.concat EmptyString (store_lines ids)) = store_lines ids.
Proof.
  induction 1 as [|x ids Hx _ IH]; [done|].
  cbn [store_lines map]. rewrite concat_cons_empty, append_assoc'.
  apply andb_true_iff in Hx as [_ Hx].
  rewrite readlines_decimal_line by done. f_equal. exact IH.
Qed.

Lemma rstrip_decimal_line (x : string) :
  Py.all_chars Py.isdecimal x = true -> Py.rstrip (x ++ nl) = x.
Proof.
  induction x as [|c x IH]; intros Hall; [done|].
  cbn in Hall. apply andb_true_iff in Hall as [Hc Hx].
  rewrite append_cons. cbn [Py.rstrip]. rewrite (IH Hx).
  destruct x; [by rewrite isdecimal_not_space | done].
Qed.

Lemma strip_decimal_line (x : string) :
  Py.all_chars Py.isdecimal x = true -> Py.strip (x ++ nl) = x.
Proof.
  intros Hall. unfold Py.strip.
  destruct x as [|c x]; [done|].
  assert (Hl : Py.lstrip (String c x ++ nl) = String c x ++ nl).
  { cbn in Hall. apply andb_true_iff in Hall as [Hc _].
    rewrite append_cons. cbn. by rewrite isdecimal_not_space. }
  rewrite Hl. by apply rstrip_decimal_line.
Qed.

(** The lines [save_total_pcb_ids] writes for decimal identifiers are
    loaded back as those identifiers. *)
Lemma loaded_store_lines (ids : list string) :
  Forall (fun x => Py.isdecimal_str x = true) ids ->
  loaded (Some (String.concat EmptyString (store_lines ids))) None = list_to_set ids.
Proof.
  intros Hids. unfold loaded. rewrite readlines_store by done. f_equal.
  induction Hids as [|x ids Hx _ IH]; [done|].
  cbn [store_lines map]. rewrite filter_cons.
  pose proof Hx as [_ Hall]%andb_true_iff.
  rewrite strip_decimal_line by done.
  rewrite decide_True by (apply Is_true_true; by apply isdecimal_str_isdigit).
  cbn [map]. rewrite strip_decimal_line by done. f_equal. exact IH.
Qed.

Lemma list_to_set_perm_elements (ids : list string) (S : gset string) :
  ids ≡ₚ elements S -> list_to_set ids = S.
Proof.
  intros Hperm. apply set_eq. intros x.
  by rewrite elem_of_list_to_set, Hperm, elem_of_elements.
Qed.

(** What [save_total_pcb_ids] leaves in the store for decimal identifiers
    loads back as the set. *)
Lemma after_save_in_step (e : env) (w : world) :
  store_writable e -> all_short_decimal w -> store_in_step (after_save e w).
Proof.
  intros (Hopen & Hfault & Horder) Hdec. unfold order_ok in Horder.
  unfold store_in_step, after_save. rewrite Hopen, Hfault.
  destruct (sorted_int_spec (set_order e (total_pcb_ids (self w)))) as (ids & -> & Hperm & _).
  { apply Forall_forall. intros x Hx. apply int_decimal, Hdec.
    by rewrite Horder, elem_of_elements in Hx. }
  rewrite block_no_fault.
  cbn [rewrite_file disk self set_file total_pcb_file].
  rewrite loaded_store_lines.
  - apply list_to_set_perm_elements. by rewrite Hperm.
  - apply Forall_forall. intros x Hx.
    assert (short_decimal x = true) as [Hx' _]%andb_true_iff; [|done].
    apply Hdec. by rewrite Hperm, Horder, elem_of_elements in Hx.
Qed.

(** X1. Round trip of the store: when the store can be opened, written and
    closed, saving a set of identifiers that are non-empty strings of at
    most 4300 decimal digits and loading it again, as a restart does, gives
    back exactly that set. *)
Theorem save_then_load (e : env) (w : world) :
  store_writable e -> all_short_decimal w ->
  (load_total_pcb_ids None (save_total_pcb_ids e w).2).1 = Val (total_pcb_ids (self w)).
Proof.
  intros He Hdec. rewrite save_total_pcb_ids_eq, load_total_pcb_ids_eq. cbn [fst snd].
  f_equal. rewrite <- (self_after_save e w). by apply after_save_in_step.
Qed.

(** X2. [load_total_pcb_ids] never raises and changes nothing; without a
    store, or with a store that cannot be read, it returns the empty set;
    otherwise it returns exactly the trimmed lines that [str.isdigit]
    accepts, so every identifier it returns is non-empty and made of digit
    characters. *)
Theorem load_total_pcb_ids_returns (o : option exn) (w : world) :
  ∃ ids,
    load_total_pcb_ids o w = (Val ids, w) ∧
    (total_pcb_file (disk w) = None ∨ o ≠ None -> ids = ∅) ∧
    (∀ content, total_pcb_file (disk w) = Some content -> o = None ->
       ∀ x, x ∈ ids <->
            ∃ line, line ∈ Py.readlines content ∧ x = Py.strip line ∧ Py.isdigit x = true).
Proof.
  exists (loaded (total_pcb_file (disk w)) o).
  split; [apply load_total_pcb_ids_eq|]. split.
  - unfold loaded. intros [-> | Ho]; [done|].
    destruct (total_pcb_file (disk w)); [|done]. by destruct o.
  - intros content -> -> x. apply loaded_spec.
Qed.

(** ** What the passes can add *)

Lemma extract_pcb_ids_single (content x : string) :
  x ∈ extract_pcb_ids content -> single_digit x.
Proof.
  unfold extract_pcb_ids.
  destruct (Re.findall IGNORECASE PCB_ID_PATTERN content) as [|y ys] eqn:Hp.
  - apply findall_primary_fallback_nil in Hp. rewrite Hp. inversion 1.
  - rewrite <- Hp. apply findall_primary_single.
Qed.

Lemma single_digit_decimal (x : string) : single_digit x -> short_decimal x = true.
Proof. intros (d & Hd & ->). unfold short_decimal. cbn. by rewrite Hd. Qed.

Lemma all_short_decimal_pass (e : env) (w : world) : all_short_decimal w -> all_short_decimal (pass e w).
Proof.
  intros Hdec x. rewrite total_pass. destruct (snapshot e) as [c|]; [|apply Hdec].
  rewrite elem_of_union, elem_of_list_to_set.
  intros [Hx | Hx]; [by apply Hdec | by eapply single_digit_decimal, extract_pcb_ids_single].
Qed.

(** X4. Short decimal identifiers stay so: when every identifier of the
    handler is a non-empty string of at most 4300 decimal digits, this still
    holds after any run, and [int] reads every identifier the handler then
    holds. *)
Theorem run_keeps_identifiers_decimal (es : list env) (w : world) :
  all_short_decimal w ->
  ∀ x, x ∈ total_pcb_ids (self (run es w)) ->
       short_decimal x = true ∧ is_Some (Py.int x).
Proof.
  intros Hdec.
  assert (Hrun : all_short_decimal (run es w)).
  { revert w Hdec. induction es as [|e es IH]; intros w Hdec; [done|].
    cbn [run foldl]. by apply IH, all_short_decimal_pass. }
  intros x Hx. split; [by apply Hrun | by apply int_decimal, Hrun].
Qed.

(** ** The store over a run *)

Lemma all_short_decimal_run (es : list env) (w : world) : all_short_decimal w -> all_short_decimal (run es w).
Proof.
  revert w. induction es as [|e es IH]; intros w Hdec; [done|].
  cbn [run foldl]. by apply IH, all_short_decimal_pass.
Qed.

Lemma store_in_step_frame (w w' : world) :
  total_pcb_file (disk w') = total_pcb_file (disk w) ->
  total_pcb_ids (self w') = total_pcb_ids (self w) ->
  store_in_step w -> store_in_step w'.
Proof. unfold store_in_step. by intros -> ->. Qed.

Lemma store_file_after_count o f w :
  total_pcb_file (disk (after_count o f w)) = total_pcb_file (disk w).
Proof. by destruct (leaves_after_count TOTAL_PCB_FILE o f w). Qed.

Lemma store_file_day_change e w :
  total_pcb_file (disk (day_change e w)) = total_pcb_file (disk w).
Proof. by destruct (leaves_day_change TOTAL_PCB_FILE e w). Qed.

Lemma store_file_after_lines e c w :
  total_pcb_file (disk (after_lines e c w)) = total_pcb_file (disk w).
Proof. by destruct (leaves_after_lines TOTAL_PCB_FILE e c w). Qed.

Lemma all_short_decimal_merged e c w :
  all_short_decimal w -> all_short_decimal (merged c (after_lines e c w)).
Proof.
  intros Hdec x. unfold merged. cbn [self total_pcb_ids]. rewrite self_after_lines.
  rewrite elem_of_union, elem_of_list_to_set.
  intros [Hx | Hx]; [by apply Hdec | by eapply single_digit_decimal, extract_pcb_ids_single].
Qed.

Lemma store_in_step_ingest e c w :
  store_writable e -> all_short_decimal w -> store_in_step w -> store_in_step (ingest e c w).
Proof.
  intros He Hdec Hw. unfold ingest. case_bool_decide as Hgrow.
  - by apply after_save_in_step, all_short_decimal_merged.
  - apply (store_in_step_frame w); [apply store_file_after_lines | | done].
    unfold merged in *. cbn [self total_pcb_ids] in *. rewrite self_after_lines in *.
    symmetry. apply set_subseteq_size_eq; [apply union_subseteq_l | lia].
Qed.

Lemma store_in_step_pass e w :
  store_writable e -> all_short_decimal w -> store_in_step w -> store_in_step (pass e w).
Proof.
  intros He Hdec Hw. rewrite pass_eq.
  assert (Hd : store_in_step (day_change e w)).
  { apply (store_in_step_frame w); [apply store_file_day_change | apply total_day_change | done]. }
  assert (Hdd : all_short_decimal (day_change e w)).
  { intros x. rewrite total_day_change. apply Hdec. }
  eapply store_in_step_frame; [apply store_file_after_count | by rewrite self_after_count |].
  destruct (snapshot e) as [c|]; [by apply store_in_step_ingest | done].
Qed.

(** X5. The store follows the set over a run: when every pass can open,
    write and close the store, the identifiers are non-empty strings of at
    most 4300 decimal digits and the store loads as the set at the start,
    then after any run the store still loads as the set, so a restart
    recovers every identifier. *)
Theorem run_keeps_store_in_step (es : list env) (w : world) :
  Forall store_writable es -> all_short_decimal w -> store_in_step w ->
  (load_total_pcb_ids None (run es w)).1 = Val (total_pcb_ids (self (run es w))).
Proof.
  intros Hes Hdec Hw. rewrite load_total_pcb_ids_eq. cbn [fst]. f_equal.
  revert w Hdec Hw. induction Hes as [|e es He _ IH]; intros w Hdec Hw; [done|].
  cbn [run foldl]. apply IH; [by apply all_short_decimal_pass | by apply store_in_step_pass].
Qed.

(** ** A store that cannot be opened *)



Lemma stops_early_snapshot (e : env) : stops_early e -> snapshot e = None.
Proof.
  unfold snapshot. intros [Hm | [Hc | [[x Hg] | [Hz | [Hr [x Hb]]]]]].
  - by rewrite Hm.
  - destruct (source_exists e); [|done]. by destruct (copy2 e).
  - rewrite Hg. destruct (source_exists e); [|done]. by destruct (copy2 e).
  - rewrite Hz. destruct (source_exists e); [|done]. by destruct (copy2 e).
  - rewrite Hb. destruct (source_exists e); [|done].
    destruct (copy2 e); [done|]. destruct (getsize e) as [|n]; [done|].
    destruct (n =? 0)%N; [done|].
    assert (Hfr : ∀ encs, first_readable e encs = None).
    { induction encs as [|enc encs IH]; [done|]. cbn. by destruct (Hr enc) as [y ->]. }
    by rewrite Hfr.
Qed.



(** ** Passes that stop early, and the other artifacts *)

(** X7. A pass that stops before the extraction (missing source, failed
    copy, failed or zero size, nothing readable) changes the count file
    only: the set, the store and the PCB lines file are as before, and no
    event of the pass is about the store or the PCB lines file. *)
Theorem early_pass_touches_count_file_only (e : env) (w : world) :
  stops_early e ->
  total_pcb_ids (self (pass e w)) = total_pcb_ids (self w) ∧
  leaves TOTAL_PCB_FILE w (pass e w) ∧
  leaves PCB_LINES_PATH w (pass e w).
Proof.
  intros Hs%stops_early_snapshot. split; [by rewrite total_pass, Hs|].
  rewrite pass_eq, Hs.
  split; (eapply leaves_trans; [by apply leaves_day_change | by apply leaves_after_count]).
Qed.




Lemma date_after_count o f w :
  current_date (self (after_count o f w)) = current_date (self w).
Proof. by rewrite self_after_count. Qed.

Lemma date_ingest e c w : current_date (self (ingest e c w)) = current_date (self w).
Proof.
  unfold ingest. case_bool_decide; rewrite ?self_after_save; cbn [merged self current_date];
    by rewrite self_after_lines.
Qed.

(** X9. After every pass the handler's date is the date of that pass,
    whichever path the pass takes; so the day change of lines 66-70 is seen
    once per day, by the first pass of that day. *)
Theorem pass_records_the_date (e e' : env) (w : world) :
  current_date (self (pass e w)) = today e ∧
  (today e' = today e -> day_change e' (pass e w) = pass e w).
Proof.
  assert (Hdate : current_date (self (pass e w)) = today e).
  { rewrite pass_eq, date_after_count.
    assert (Hd : current_date (self (day_change e w)) = today e).
    { unfold day_change. case_bool_decide as Hne; [by rewrite date_after_count | done]. }
    destruct (snapshot e); by rewrite ?date_ingest. }
  split; [done|]. intros Hsame. unfold day_change.
  rewrite bool_decide_eq_false_2; [done|]. rewrite Hdate. by intros [].
Qed.

(** ** From the start of [main] through the events *)

Lemma init_eq (o : option exn) (date : Z) (w : world) :
  init o date w =
  (Val tt, World (Handler (loaded (total_pcb_file (disk w)) o) date) (disk w) (trace w)).
Proof. unfold init, bind. by rewrite load_total_pcb_ids_eq. Qed.

Lemma main_start_eq (o_load : option exn) (date : Z) (o_count : option exn)
    (f_count : fault) (at_start : bool) (e : env) (w : world) :
  main_start o_load date o_count f_count at_start e w =
  (Val tt,
   let w1 := after_count o_count f_count
               (World (Handler (loaded (total_pcb_file (disk w)) o_load) date)
                      (disk w) (trace w)) in
   if at_start then pass e w1 else w1).
Proof.
  unfold main_start, bind. rewrite init_eq, update_count_file_eq.
  destruct at_start; [by rewrite process_log_file_eq, pass_eq | done].
Qed.

Lemma on_modified_eq (ev : fs_event) (e : env) (w : world) :
  on_modified ev e w =
  (Val tt,
   if String.eqb (src_path ev) SOURCE_LOG_PATH && negb (is_directory ev)
   then pass e w else w).
Proof.
  unfold on_modified. destruct (_ && _); [by rewrite process_log_file_eq, pass_eq | done].
Qed.

(** The three properties a restart relies on. *)
Lemma watch_keeps (evs : list (fs_event * env)) (w : world) (S0 : gset string) :
  Forall (fun p => store_writable p.2) evs ->
  all_short_decimal w -> store_in_step w -> S0 ⊆ total_pcb_ids (self w) ->
  all_short_decimal (watch evs w) ∧ store_in_step (watch evs w) ∧
  S0 ⊆ total_pcb_ids (self (watch evs w)).
Proof.
  intros Hevs. revert w. induction Hevs as [|[ev e] evs He _ IH]; intros w Hdec Hstep Hsub; [done|].
  cbn [watch foldl]. rewrite on_modified_eq. cbn [fst snd] in *.
  destruct (_ && _); [|by apply IH].
  apply IH; [by apply all_short_decimal_pass | by apply store_in_step_pass |].
  etrans; [exact Hsub | apply total_pass_grows].
Qed.

(** X11. From the start of [main] through any events of the observer: no
    call raises; events for another path or for a directory change
    nothing; and when the store is readable, holds only identifiers that
    are non-empty strings of at most 4300 decimal digits, and every pass
    can open, write and close it, then at the end the set contains every
    identifier of the store as it was at the start, and the store loads as
    the set, so that the next start recovers it; whatever happens to the
    count file. *)
Theorem lifetime_keeps_the_store (o_count : option exn) (f_count : fault) (date : Z)
    (at_start : bool) (e0 : env) (evs : list (fs_event * env)) (w0 : world) :
  let S0 := loaded (total_pcb_file (disk w0)) None in
  let w1 := (main_start None date o_count f_count at_start e0 w0).2 in
  (main_start None date o_count f_count at_start e0 w0).1 = Val tt ∧
  (∀ ev e w, (on_modified ev e w).1 = Val tt ∧
             (src_path ev ≠ SOURCE_LOG_PATH ∨ is_directory ev = true ->
              (on_modified ev e w).2 = w)) ∧
  ((∀ x, x ∈ S0 -> short_decimal x = true) ->
   store_writable e0 -> Forall (fun p => store_writable p.2) evs ->
   S0 ⊆ total_pcb_ids (self (watch evs w1)) ∧
   (load_total_pcb_ids None (watch evs w1)).1 = Val (total_pcb_ids (self (watch evs w1)))).
Proof.
  intros S0 w1. split; [by rewrite main_start_eq|]. split.
  - intros ev e w. rewrite on_modified_eq. split; [done|]. cbn [snd].
    intros [Hp | Hd].
    + apply String.eqb_neq in Hp. by rewrite Hp.
    + rewrite Hd. by rewrite andb_false_r.
  - intros Hdec He0 Hevs. unfold w1. rewrite main_start_eq. cbn [snd]. cbv zeta.
    fold S0. set (wi := World (Handler S0 date) (disk w0) (trace w0)).
    assert (Hi : all_short_decimal (after_count o_count f_count wi) ∧ store_in_step (after_count o_count f_count wi) ∧
                 S0 ⊆ total_pcb_ids (self (after_count o_count f_count wi))).
    { unfold all_short_decimal, store_in_step.
      rewrite store_file_after_count, self_after_count. done. }
    destruct Hi as (Hd1 & Hs1 & Hsub1).
    assert (Hw : ∃ w', (if at_start then pass e0 (after_count o_count f_count wi)
                        else after_count o_count f_count wi) = w' ∧
                       all_short_decimal w' ∧ store_in_step w' ∧ S0 ⊆ total_pcb_ids (self w')).
    { destruct at_start; eexists; (split; [reflexivity|]); [|done].
      split; [by apply all_short_decimal_pass|]. split; [by apply store_in_step_pass|].
      etrans; [exact Hsub1 | apply total_pass_grows]. }
    destruct Hw as (w' & -> & Hd & Hs & Hsub).
    destruct (watch_keeps evs w' S0 Hevs Hd Hs Hsub) as (_ & Hstep & Hsub').
    split; [done|]. rewrite load_total_pcb_ids_eq. cbn [fst]. by f_equal.
Qed.

(** ** What the two patterns capture *)

Lemma length_append (s t : string) :
  String.length (s ++ t) = String.length s + String.length t.
Proof. induction s as [|c s IH]; [done|]. rewrite append_cons. cbn. by rewrite IH. Qed.

Lemma findall_from_skip (ic : bool) (r : Re.regex) (a b : string) :
  Re.findall_from ic r (a ++ b) (String.length a) = Re.findall_from ic r b 0.
Proof. induction a as [|c a IH]; [done|]. rewrite append_cons. cbn. exact IH. Qed.

(** After a match the search resumes where the match ended. *)
Lemma findall_after_match (ic : bool) (r : Re.regex) (c : ascii) (pre rest : string)
    (caps : list string) :
  Re.match_at ic r (String c (pre ++ rest)) = Some (caps, rest) ->
  Re.findall ic r (String c (pre ++ rest)) = hd EmptyString caps :: Re.findall ic r rest.
Proof.
  intros Hm. unfold Re.findall. cbn [Re.findall_from]. rewrite Hm. f_equal.
  replace (String.length (String c (pre ++ rest)) - String.length rest - 1)
    with (String.length pre) by (cbn; rewrite length_append; lia).
  apply findall_from_skip.
Qed.

Lemma findall_no_match (ic : bool) (r : Re.regex) (c : ascii) (s : string) :
  Re.match_at ic r (String c s) = None ->
  Re.findall ic r (String c s) = Re.findall ic r s.
Proof. intros Hm. unfold Re.findall. cbn [Re.findall_from]. by rewrite Hm. Qed.

Lemma take_drop_while (p : ascii -> bool) (s : string) :
  take_while p s ++ drop_while p s = s.
Proof.
  induction s as [|c s IH]; [done|]. cbn. destruct (p c); [|done].
  by rewrite append_cons, IH.
Qed.

Lemma take_take_while (p : ascii -> bool) (s : string) :
  Re.take (String.length (take_while p s)) s = take_while p s.
Proof. induction s as [|c s IH]; [done|]. cbn. destruct (p c); [|done]. cbn. by rewrite IH. Qed.

Lemma consumed_run (p : ascii -> bool) (d : ascii) (s : string) :
  Re.consumed (String d s) (drop_while p s) = String d (take_while p s).
Proof.
  unfold Re.consumed.
  replace (String.length (String d s) - String.length (drop_while p s))
    with (S (String.length (take_while p s))).
  - cbn. by rewrite take_take_while.
  - cbn. rewrite <- (take_drop_while p s) at 2. rewrite length_append. lia.
Qed.

(** At a digit, the group takes the whole run of digits. *)
Lemma digits_group_run (d : ascii) (rest : string) :
  Py.isdecimal d = true ->
  digits_group (String d rest)
  = Some ([String d (take_while Py.isdecimal rest)], drop_while Py.isdecimal rest).
Proof. intros Hd. by rewrite digits_group_eq, Hd, consumed_run. Qed.

Lemma plain_not_decimal (c : ascii) : plain c = true -> Py.isdecimal c = false.
Proof. unfold plain. intros [H _]%andb_true_iff. by apply negb_true_iff. Qed.

Lemma plain_dot (c : ascii) : plain c = true -> Re.atom_ok IGNORECASE Re.Dot c = true.
Proof. unfold plain. by intros [_ H]%andb_true_iff. Qed.

(** The lazy gap stops at the first digit. *)
Lemma star_lazy_plain (gap : string) (d : ascii) (rest : string) :
  Py.all_chars plain gap = true -> Py.isdecimal d = true ->
  Re.star Re.Lazy (Re.atom_ok IGNORECASE Re.Dot) (gap ++ String d rest) digits_group
  = digits_group (String d rest).
Proof.
  intros Hgap Hd. induction gap as [|c gap IH].
  - rewrite append_empty_l. cbn [Re.star]. by rewrite digits_group_run.
  - cbn in Hgap. apply andb_true_iff in Hgap as [Hc Hgap].
    rewrite append_cons. cbn [Re.star].
    rewrite (digits_group_eq (String c _)), (plain_not_decimal c Hc), (plain_dot c Hc).
    by apply IH.
Qed.

(** The greedy gap, over text without digits up to the end of the line,
    finds nothing. *)
Lemma star_greedy_plain (a b : string) :
  Py.all_chars plain a = true -> at_line_end b ->
  Re.star Re.Greedy (Re.atom_ok IGNORECASE Re.Dot) (a ++ b) digits_group = None.
Proof.
  intros Ha Hb. induction a as [|c a IH].
  - rewrite append_empty_l. by destruct Hb as [-> | [s' ->]].
  - cbn in Ha. apply andb_true_iff in Ha as [Hc Ha].
    rewrite append_cons. cbn [Re.star]. rewrite (plain_dot c Hc), (IH Ha).
    by rewrite digits_group_eq, (plain_not_decimal c Hc).
Qed.

Lemma drop_while_plain (a b : string) :
  Py.all_chars plain a = true -> at_line_end b ->
  drop_while Py.isdecimal (a ++ b) = a ++ b.
Proof.
  intros Ha Hb. destruct a as [|c a].
  - rewrite append_empty_l. by destruct Hb as [-> | [s' ->]].
  - cbn in Ha. apply andb_true_iff in Ha as [Hc _].
    rewrite append_cons. cbn. by rewrite (plain_not_decimal c Hc).
Qed.

(** A longer gap is tried first: what the greedy star finds after a prefix
    of the class, it finds with the prefix. *)
Lemma star_greedy_prefix {A} (p : ascii -> bool) (g s : string) (k : string -> option A)
    (r : A) :
  Py.all_chars p g = true ->
  Re.star Re.Greedy p s k = Some r -> Re.star Re.Greedy p (g ++ s) k = Some r.
Proof.
  intros Hg Hs. induction g as [|c g IH]; [done|].
  cbn in Hg. apply andb_true_iff in Hg as [Hc Hg].
  rewrite append_cons. cbn [Re.star]. by rewrite Hc, (IH Hg).
Qed.

Lemma lower_pcb_sets (c1 c2 c3 : ascii) :
  Py.lower (String c1 (String c2 (String c3 EmptyString))) = "pcb" ->
  Re.atom_ok IGNORECASE (Re.Set_ ["P"; "p"]%char) c1 = true ∧
  Re.atom_ok IGNORECASE (Re.Set_ ["C"; "c"]%char) c2 = true ∧
  Re.atom_ok IGNORECASE (Re.Set_ ["B"; "b"]%char) c3 = true.
Proof.
  intros (H1 & H2 & H3)%lower_pcb.
  destruct (lit_set_ignorecase c1) as (<- & _ & _).
  destruct (lit_set_ignorecase c2) as (_ & <- & _).
  by destruct (lit_set_ignorecase c3) as (_ & _ & <-).
Qed.

(** X12. The fallback pattern, at a token pcb in any case followed by a gap
    without digit or line feed and then a digit, yields the whole run of
    digits that starts there, and the search goes on right after that
    run. *)
Theorem fallback_captures_first_run (c1 c2 c3 : ascii) (gap : string) (d : ascii)
    (rest : string) :
  Py.lower (String c1 (String c2 (String c3 EmptyString))) = "pcb" ->
  Py.all_chars plain gap = true -> Py.isdecimal d = true ->
  Re.findall IGNORECASE FALLBACK_PATTERN
    (String c1 (String c2 (String c3 (gap ++ String d rest))))
  = String d (take_while Py.isdecimal rest)
      :: Re.findall IGNORECASE FALLBACK_PATTERN (drop_while Py.isdecimal rest).
Proof.
  intros (H1 & H2 & H3)%lower_pcb_sets Hgap Hd.
  assert (Hm : Re.match_at IGNORECASE FALLBACK_PATTERN
                 (String c1 (String c2 (String c3 (gap ++ String d rest))))
               = Some ([String d (take_while Py.isdecimal rest)],
                       drop_while Py.isdecimal rest)).
  { unfold Re.match_at, FALLBACK_PATTERN. cbn [Re.exec]. rewrite H1, H2, H3.
    etrans; [apply (star_lazy_plain gap d rest Hgap Hd) | by apply digits_group_run]. }
  assert (Hs : String c2 (String c3 (gap ++ String d rest))
               = String c2 (String c3 (gap ++ String d (take_while Py.isdecimal rest)))
                 ++ drop_while Py.isdecimal rest).
  { rewrite !append_cons, append_assoc', append_cons. by rewrite take_drop_while. }
  rewrite Hs in Hm |- *. by rewrite (findall_after_match _ _ _ _ _ _ Hm).
Qed.

Lemma match_at_primary_line (c1 c2 c3 : ascii) (gap : string) (d : ascii) (a b : string) :
  Py.lower (String c1 (String c2 (String c3 EmptyString))) = "pcb" ->
  Py.all_chars (fun c => negb (Ascii.eqb c Py.LF)) gap = true ->
  Py.isdecimal d = true -> Py.all_chars plain a = true -> at_line_end b ->
  Re.match_at IGNORECASE PCB_ID_PATTERN
    (String c1 (String c2 (String c3 (gap ++ String d (a ++ b)))))
  = Some ([String d EmptyString], a ++ b).
Proof.
  intros (H1 & H2 & H3)%lower_pcb Hgap Hd Ha Hb.
  unfold Re.match_at, PCB_ID_PATTERN. cbn [Re.exec]. rewrite H1, H2, H3.
  apply (star_greedy_prefix _ gap _ digits_group); [exact Hgap|].
  cbn [Re.star].
  assert (Hdot : Re.atom_ok IGNORECASE Re.Dot d = true).
  { pose proof (isdecimal_not_newline d Hd) as [Hlf _]%orb_false_iff.
    change (negb (Ascii.eqb d Py.LF) = true). by rewrite Hlf. }
  rewrite Hdot, (star_greedy_plain a b Ha Hb).
  by rewrite digits_group_eq, Hd, (drop_while_plain a b Ha Hb), consumed_one.
Qed.

Lemma match_at_primary_plain (t b : string) :
  Py.all_chars plain t = true -> at_line_end b ->
  Re.match_at IGNORECASE PCB_ID_PATTERN (t ++ b) = None.
Proof.
  intros Ht Hb. unfold Re.match_at, PCB_ID_PATTERN.
  destruct t as [|x t].
  { rewrite append_empty_l. by destruct Hb as [-> | [s' ->]]. }
  rewrite append_cons. cbn [Re.exec]. destruct (Re.atom_ok _ _ x); [|done].
  cbn in Ht. apply andb_true_iff in Ht as [_ Ht].
  destruct t as [|y t].
  { rewrite append_empty_l. by destruct Hb as [-> | [s' ->]]. }
  rewrite append_cons. destruct (Re.atom_ok _ _ y); [|done].
  cbn in Ht. apply andb_true_iff in Ht as [_ Ht].
  destruct t as [|z t].
  { rewrite append_empty_l. by destruct Hb as [-> | [s' ->]]. }
  rewrite append_cons. destruct (Re.atom_ok _ _ z); [|done].
  cbn in Ht. apply andb_true_iff in Ht as [_ Ht].
  by apply star_greedy_plain.
Qed.

Lemma findall_primary_plain (a b : string) :
  Py.all_chars plain a = true -> at_line_end b ->
  Re.findall IGNORECASE PCB_ID_PATTERN (a ++ b) = Re.findall IGNORECASE PCB_ID_PATTERN b.
Proof.
  intros Ha Hb. induction a as [|c a IH]; [done|].
  pose proof (match_at_primary_plain (String c a) b Ha Hb) as Hm.
  rewrite append_cons in Hm |- *. rewrite (findall_no_match _ _ _ _ Hm).
  cbn in Ha. apply andb_true_iff in Ha as [_ Ha]. by apply IH.
Qed.

(** X13. The primary pattern, on a line that starts with pcb in any case,
    has a digit after it and no digit after that one, yields that last
    digit alone, whatever digits stand before it on the line; the search
    goes on with the next line. *)
Theorem primary_captures_last_digit_of_line (c1 c2 c3 : ascii) (gap : string) (d : ascii)
    (a : string) :
  Py.lower (String c1 (String c2 (String c3 EmptyString))) = "pcb" ->
  Py.all_chars (fun c => negb (Ascii.eqb c Py.LF)) gap = true ->
  Py.isdecimal d = true -> Py.all_chars plain a = true ->
  Re.findall IGNORECASE PCB_ID_PATTERN
    (String c1 (String c2 (String c3 (gap ++ String d a)))) = [String d EmptyString] ∧
  ∀ more,
    Re.findall IGNORECASE PCB_ID_PATTERN
      (String c1 (String c2 (String c3 (gap ++ String d (a ++ String Py.LF more)))))
    = String d EmptyString :: Re.findall IGNORECASE PCB_ID_PATTERN more.
Proof.
  intros Hpcb Hgap Hd Ha.
  assert (Hline : ∀ b, at_line_end b ->
            Re.findall IGNORECASE PCB_ID_PATTERN
              (String c1 (String c2 (String c3 (gap ++ String d (a ++ b)))))
            = String d EmptyString :: Re.findall IGNORECASE PCB_ID_PATTERN b).
  { intros b Hb.
    pose proof (match_at_primary_line c1 c2 c3 gap d a b Hpcb Hgap Hd Ha Hb) as Hm.
    assert (Hs : String c2 (String c3 (gap ++ String d (a ++ b)))
                 = String c2 (String c3 (gap ++ String d EmptyString)) ++ (a ++ b)).
    { by rewrite !append_cons, append_assoc', append_cons. }
    rewrite Hs in Hm |- *. rewrite (findall_after_match _ _ _ _ _ _ Hm). cbn [hd].
    f_equal. by apply findall_primary_plain. }
  split.
  - rewrite <- (append_empty_r a). by rewrite Hline by (by left).
  - intros more. by rewrite Hline by (right; eauto).
Qed.

(** ** When the files are written *)

(** X14. The store is written only when the set grows: a pass after which
    the set has the size it had before leaves the store as it was, without
    opening it. *)
Theorem store_written_only_on_growth (e : env) (w : world) :
  size (total_pcb_ids (self (pass e w))) = size (total_pcb_ids (self w)) ->
  leaves TOTAL_PCB_FILE w (pass e w).
Proof.
  intros Hsize. rewrite total_pass in Hsize. rewrite pass_eq.
  eapply leaves_trans; [|by apply leaves_after_count].
  destruct (snapshot e) as [c|]; [|by apply leaves_day_change].
  eapply leaves_trans; [by apply leaves_day_change|].
  unfold ingest. cbn [merged self total_pcb_ids].
  rewrite self_after_lines, total_day_change.
  rewrite bool_decide_eq_false_2 by lia.
  eapply leaves_trans; [by apply leaves_after_lines | apply leaves_set_self].
Qed.



(** ** The further properties at concrete inputs *)

Lemma store_writable_env_reading (content : string) : store_writable (env_reading content).
Proof. split; [reflexivity|]. split; [reflexivity | intros S; reflexivity]. Defined.

Lemma all_short_decimal_holding_2_10_1 : all_short_decimal holding_2_10_1.
Proof.
  intros x. cbn [holding_2_10_1 self total_pcb_ids].
  rewrite !elem_of_union, !elem_of_singleton. by intros [[-> | ->] | ->].
Defined.

Lemma all_short_decimal_fresh : all_short_decimal fresh.
Proof. intros x Hx. by apply elem_of_empty in Hx. Defined.


Lemma save_then_load_witness :
  (load_total_pcb_ids None (save_total_pcb_ids (env_reading EmptyString) holding_2_10_1).2).1
  = Val (total_pcb_ids (self holding_2_10_1)).
Proof.
  exact (save_then_load _ _ (store_writable_env_reading _) all_short_decimal_holding_2_10_1).
Defined.

Lemma run_keeps_identifiers_decimal_witness :
  all_short_decimal holding_2_10_1 ∧
  short_decimal "10" = true ∧ is_Some (Py.int "10").
Proof.
  split; [exact all_short_decimal_holding_2_10_1|].
  apply (run_keeps_identifiers_decimal [env_reading three_lines] holding_2_10_1
           all_short_decimal_holding_2_10_1).
  apply (total_pass_grows (env_reading three_lines) holding_2_10_1).
  cbn [holding_2_10_1 self total_pcb_ids].
  rewrite !elem_of_union, !elem_of_singleton. by left; right.
Defined.

Lemma run_keeps_store_in_step_witness :
  (load_total_pcb_ids None (run [env_reading three_lines; env_reading one_line] fresh)).1
  = Val (total_pcb_ids (self (run [env_reading three_lines; env_reading one_line] fresh))).
Proof.
  apply run_keeps_store_in_step.
  - repeat constructor; apply store_writable_env_reading.
  - exact all_short_decimal_fresh.
  - reflexivity.
Defined.


Lemma early_pass_touches_count_file_only_witness :
  total_pcb_ids (self (pass env_missing holding_2_10_1)) = total_pcb_ids (self holding_2_10_1).
Proof.
  refine (proj1 (early_pass_touches_count_file_only env_missing holding_2_10_1 _)).
  left. reflexivity.
Defined.


Lemma fallback_captures_first_run_witness :
  Re.findall IGNORECASE FALLBACK_PATTERN "Pcb: 0012 PCB0013" = ["0012"; "0013"].
Proof.
  refine (eq_trans (fallback_captures_first_run "P" "c" "b" ": " "0" "012 PCB0013"
                      eq_refl eq_refl eq_refl) _).
  reflexivity.
Defined.

Lemma primary_captures_last_digit_of_line_witness :
  Re.findall IGNORECASE PCB_ID_PATTERN "Pcb: 0012 PCB0013 ok" = ["3"].
Proof.
  exact (proj1 (primary_captures_last_digit_of_line "P" "c" "b" ": 0012 PCB001" "3" " ok"
                  eq_refl eq_refl eq_refl eq_refl)).
Defined.

Lemma store_written_only_on_growth_witness :
  leaves TOTAL_PCB_FILE (pass (env_reading three_lines) fresh)
    (pass (env_reading three_lines) (pass (env_reading three_lines) fresh)).
Proof. apply store_written_only_on_growth. reflexivity. Defined.

